(** * EZBuilds API: the request router of [main.py] over the entity
    definitions of [schemas.py]

    The development follows the layers of the program:
    - [Text]: the string operations the router relies on ([str.lower] and
      the anchored / unanchored pattern search behind the store's [$regex]);
    - [Schemas]: the eleven entity definitions of [schemas.py] as field
      tables, with construction (validation, defaults) and [model_dump];
    - [Store]: the document store adapter ([create_document],
      [get_documents]);
    - [Router]: [_collection_name], [_serialize] and every endpoint of
      [main.py].

    Text is modelled as strings of 8-bit characters and letter case is the
    ASCII one. *)

From Stdlib Require Import ZArith Ascii String List Bool Lia.
From Stdlib Require Import Floats.SpecFloat.
From stdpp Require Import gmap strings list fin_maps.

Local Open Scope string_scope.
Local Set Warnings "-register-all".

(* ===================================================================== *)
(** * Text *)
(* ===================================================================== *)

Module Text.

Definition is_upper (c : ascii) : bool :=
  let n := N_of_ascii c in (65 <=? n)%N && (n <=? 90)%N.

Definition is_lower (c : ascii) : bool :=
  let n := N_of_ascii c in (97 <=? n)%N && (n <=? 122)%N.

Definition is_digit (c : ascii) : bool :=
  let n := N_of_ascii c in (48 <=? n)%N && (n <=? 57)%N.

Definition is_alpha (c : ascii) : bool := is_upper c || is_lower c.
Definition is_alnum (c : ascii) : bool := is_alpha c || is_digit c.

(** [c.lower()] on one character. *)
Definition lower_char (c : ascii) : ascii :=
  if is_upper c then ascii_of_N (N_of_ascii c + 32) else c.

(** [s.lower()]. *)
Fixpoint lower (s : string) : string :=
  match s with
  | EmptyString => EmptyString
  | String c s' => String (lower_char c) (lower s')
  end.

Definition newline : ascii := "010"%char.

(** ** The pattern language of [$regex]

    The store evaluates [{"$regex": p, "$options": o}] with a Perl-style
    engine.  The fragment modelled here is the one in which every pattern
    is a sequence of atoms: an ordinary character, an escaped punctuation
    character, [.], [^] and [$].  Quantifiers, groups, classes,
    alternation and alphanumeric escapes are outside the fragment:
    [re_parse] answers [None] for them. *)

Inductive atom :=
  | ALit (c : ascii)     (* this character *)
  | AAny                 (* [.] : any character but a line feed *)
  | ABol                 (* [^] : start of the subject *)
  | AEol.                (* [$] : end of the subject, or before a final line feed *)

(** Metacharacters that start a construct outside the fragment. *)
Definition is_operator (c : ascii) : bool :=
  existsb (Ascii.eqb c) ["*"; "+"; "?"; "("; ")"; "["; "]"; "{"; "}"; "|"]%char.

(** Characters with a meaning of their own in a pattern. *)
Definition is_meta (c : ascii) : bool :=
  is_operator c || existsb (Ascii.eqb c) ["."; "^"; "$"; "\"]%char.

Fixpoint re_parse (p : string) : option (list atom) :=
  match p with
  | EmptyString => Some []
  | String c rest =>
      if Ascii.eqb c "." then cons AAny <$> re_parse rest
      else if Ascii.eqb c "^" then cons ABol <$> re_parse rest
      else if Ascii.eqb c "$" then cons AEol <$> re_parse rest
      else if Ascii.eqb c "\" then
        match rest with
        | String c' rest' =>
            if is_alnum c' then None else cons (ALit c') <$> re_parse rest'
        | EmptyString => None
        end
      else if is_operator c then None
      else cons (ALit c) <$> re_parse rest
  end.

(** Comparison of a pattern character with a subject character;
    [caseless] is the [i] option. *)
Definition char_eq (caseless : bool) (c d : ascii) : bool :=
  if caseless then Ascii.eqb (lower_char c) (lower_char d) else Ascii.eqb c d.

(** Does the atom sequence match a prefix of [s]?  [at_start] tells whether
    [s] is the whole subject. *)
Fixpoint match_here (caseless : bool) (atoms : list atom) (at_start : bool)
    (s : string) : bool :=
  match atoms with
  | [] => true
  | ALit c :: r =>
      match s with
      | String d s' => char_eq caseless c d && match_here caseless r false s'
      | EmptyString => false
      end
  | AAny :: r =>
      match s with
      | String d s' => negb (Ascii.eqb d newline) && match_here caseless r false s'
      | EmptyString => false
      end
  | ABol :: r => at_start && match_here caseless r at_start s
  | AEol :: r =>
      match s with
      | EmptyString => match_here caseless r at_start s
      | String d EmptyString =>
          Ascii.eqb d newline && match_here caseless r at_start s
      | String _ (String _ _) => false
      end
  end.

(** Unanchored search: a match starting at some position of the subject. *)
Fixpoint search_from (caseless : bool) (atoms : list atom) (at_start : bool)
    (s : string) : bool :=
  match_here caseless atoms at_start s ||
  match s with
  | EmptyString => false
  | String _ s' => search_from caseless atoms false s'
  end.

(** The options string: only the empty one and ["i"] are modelled. *)
Definition re_options (o : string) : option bool :=
  if String.eqb o "" then Some false
  else if String.eqb o "i" then Some true
  else None.

(** [re_search p o] is the compiled test of [{"$regex": p, "$options": o}]
    on one string, when the pattern is in the fragment. *)
Definition re_search (p o : string) : option (string → bool) :=
  atoms ← re_parse p;
  caseless ← re_options o;
  Some (search_from caseless atoms true).

(** A string with no character that is special in a pattern. *)
Fixpoint plain (s : string) : bool :=
  match s with
  | EmptyString => true
  | String c s' => negb (is_meta c) && plain s'
  end.

(** The atoms of a literal string. *)
Fixpoint lits (s : string) : list atom :=
  match s with
  | EmptyString => []
  | String c s' => ALit c :: lits s'
  end.

(** [q] occurs in [s] when letter case is ignored. *)
Definition ci_substring (q s : string) : Prop :=
  ∃ pre post : string, lower s = pre +:+ lower q +:+ post.

(** [s] and [u] are equal when letter case is ignored. *)
Definition ci_equal (s u : string) : Prop := lower s = lower u.

(** Where [$] matches: at the end, or before a final line feed. *)
Definition at_eol (s : string) : bool :=
  match s with
  | EmptyString => true
  | String d EmptyString => Ascii.eqb d newline
  | String _ (String _ _) => false
  end.

(** The last character of [s] is a line feed. *)
Fixpoint ends_with_newline (s : string) : bool :=
  match s with
  | EmptyString => false
  | String c EmptyString => Ascii.eqb c newline
  | String _ s' => ends_with_newline s'
  end.

End Text.

(* ===================================================================== *)
(** * Values and outcomes *)
(* ===================================================================== *)

(** Python [float]: IEEE 754 binary64. *)
Definition prec : Z := 53.
Definition emax : Z := 1024.
Definition float_of_Z (z : Z) : spec_float := binary_normalize prec emax z 0 false.

(** The values that occur in request payloads, entity fields and stored
    documents.  [VUrl u] is the URL object parsed from the text [u]. *)
Inductive value :=
  | VNull
  | VBool (b : bool)
  | VInt (z : Z)
  | VFloat (f : spec_float)
  | VStr (s : string)
  | VDatetime (t : Z)
  | VUrl (u : string)
  | VList (l : list value).

(** A Python [dict] with string keys. *)
Abbreviation dict := (gmap string value).

(** The error taxonomy.  [ValidationError] lists the offending fields in
    declaration order.  [Unmodelled] is not an error of the program: it
    marks a request whose outcome depends on library behaviour outside this
    model (a coercion from text, a URL or a pattern outside the fragments
    described with [coerce], [http_url] and [Text.re_parse]). *)
Inductive error :=
  | ValidationError (fields : list string)
  | StoreUnavailable
  | StoreReadError
  | StoreWriteError
  | Unmodelled.

Inductive outcome (A : Type) :=
  | Ok (a : A)
  | Fail (e : error).
Arguments Ok {A} a.
Arguments Fail {A} e.

#[global] Instance outcome_ret : MRet outcome := λ A a, Ok a.
#[global] Instance outcome_bind : MBind outcome := λ A B k m,
  match m with
  | Ok a => k a
  | Fail e => Fail e
  end.
#[global] Instance outcome_fmap : FMap outcome := λ A B g m,
  match m with
  | Ok a => Ok (g a)
  | Fail e => Fail e
  end.

(* ===================================================================== *)
(** * Entity definitions ([schemas.py]) *)
(* ===================================================================== *)

Module Schemas.

Inductive model :=
  | Item | StaffMember | VoteLink | Event | BlogPost | Application
  | StatSummary | PlayerStat | Announcement | StaffMeeting | UserAccount.

#[global] Instance model_eq_dec : EqDecision model.
Proof. solve_decision. Defined.

(** [cls.__name__] *)
Definition class_name (m : model) : string :=
  match m with
  | Item => "Item"
  | StaffMember => "StaffMember"
  | VoteLink => "VoteLink"
  | Event => "Event"
  | BlogPost => "BlogPost"
  | Application => "Application"
  | StatSummary => "StatSummary"
  | PlayerStat => "PlayerStat"
  | Announcement => "Announcement"
  | StaffMeeting => "StaffMeeting"
  | UserAccount => "UserAccount"
  end.

(** Declared field types. *)
Inductive ftype :=
  | TStr | TInt | TFloat | TBool | TDatetime | THttpUrl
  | TListStr
  | TOptional (t : ftype).

(** How a field is filled when the payload omits it. *)
Inductive fdefault :=
  | Required                    (* [Field(...)] or no default *)
  | Default (v : value)         (* a literal default, taken as written *)
  | DefaultUtcNow               (* [default_factory=datetime.utcnow] *)
  | DefaultFactory (v : value). (* [default_factory=lambda: v] *)

Record field := Field {
  f_name : string;
  f_type : ftype;
  f_default : fdefault;
  f_ge : option Z               (* [ge=] lower bound, if any *)
}.

Definition fld (n : string) (t : ftype) (d : fdefault) : field := Field n t d None.

Definition model_fields (m : model) : list field :=
  match m with
  | Item =>
      [ fld "name" TStr Required;
        Field "price" TFloat Required (Some 0%Z);
        fld "category" (TOptional TStr) (Default VNull);
        fld "description" (TOptional TStr) (Default VNull);
        fld "image_url" (TOptional THttpUrl) (Default VNull) ]
  | StaffMember =>
      [ fld "username" TStr Required;
        fld "role" TStr Required;
        fld "team" TStr Required;
        fld "since" TDatetime DefaultUtcNow;
        fld "avatar_url" (TOptional THttpUrl) (Default VNull);
        fld "active" TBool (Default (VBool true)) ]
  | VoteLink =>
      [ fld "name" TStr Required;
        fld "url" THttpUrl Required;
        fld "description" (TOptional TStr) (Default VNull) ]
  | Event =>
      [ fld "title" TStr Required;
        fld "description" TStr Required;
        fld "starts_at" TDatetime Required;
        fld "ends_at" (TOptional TDatetime) (Default VNull);
        fld "reward" (TOptional TStr) (Default VNull);
        fld "banner_url" (TOptional THttpUrl) (Default VNull);
        fld "active" TBool (Default (VBool true)) ]
  | BlogPost =>
      [ fld "title" TStr Required;
        fld "content" TStr Required;
        fld "author" TStr Required;
        fld "tags" TListStr (Default (VList []));
        fld "image_url" (TOptional THttpUrl) (Default VNull);
        fld "published" TBool (Default (VBool true)) ]
  | Application =>
      [ fld "applicant_discord_id" TStr Required;
        fld "applicant_name" TStr Required;
        fld "role_applied" TStr Required;
        fld "motivation" TStr Required;
        fld "status" TStr (Default (VStr "pending")) ]
  | StatSummary =>
      [ fld "online_players" TInt (Default (VInt 0));
        fld "total_players" TInt (Default (VInt 0));
        fld "total_money" TFloat (Default (VInt 0));
        fld "tps" TFloat (Default (VFloat (float_of_Z 20)));
        fld "gamemode" TStr (Default (VStr "Citybuild")) ]
  | PlayerStat =>
      [ fld "username" TStr Required;
        fld "money" TFloat (Default (VInt 0));
        fld "playtime_hours" TFloat (Default (VInt 0));
        fld "last_seen" (TOptional TDatetime) (Default VNull) ]
  | Announcement =>
      [ fld "title" TStr Required;
        fld "message" TStr Required;
        fld "visibility" TStr (Default (VStr "public")) ]
  | StaffMeeting =>
      [ fld "title" TStr Required;
        fld "scheduled_for" TDatetime Required;
        fld "description" (TOptional TStr) (Default VNull);
        fld "attendees" TListStr (Default (VList [])) ]
  | UserAccount =>
      [ fld "discord_id" TStr Required;
        fld "username" TStr Required;
        fld "avatar" (TOptional TStr) (Default VNull);
        fld "roles" TListStr (DefaultFactory (VList [VStr "player"]));
        fld "can_post_blog" TBool (Default (VBool false));
        fld "can_manage_staff" TBool (Default (VBool false)) ]
  end.

(** ** [HttpUrl]

    Well-formedness of a URL is decided by the validation library's URL
    parser.  Two classes of texts are modelled: a text without any [:] has
    no scheme and is always refused; a text of the plain shape
    [http(s)://label(.label)*(/path)?] of at most 2083 characters is always
    accepted.  For any other text the answer is [None]. *)

Fixpoint has_colon (s : string) : bool :=
  match s with
  | EmptyString => false
  | String c s' => Ascii.eqb c ":" || has_colon s'
  end.

Fixpoint strip_prefix (p s : string) : option string :=
  match p, s with
  | EmptyString, _ => Some s
  | String a p', String b s' => if Ascii.eqb a b then strip_prefix p' s' else None
  | String _ _, EmptyString => None
  end.

(** Labels of letters and digits separated by single dots, the last label
    starting with a letter. *)
Fixpoint host_scan (s : string) (in_label alpha_first : bool) : bool :=
  match s with
  | EmptyString => in_label && alpha_first
  | String c s' =>
      if Ascii.eqb c "." then in_label && host_scan s' false false
      else if Text.is_alnum c
      then host_scan s' true (if in_label then alpha_first else Text.is_alpha c)
      else false
  end.

Definition is_path_char (c : ascii) : bool :=
  Text.is_alnum c || existsb (Ascii.eqb c) ["/"; "."; "_"; "~"; "-"]%char.

Fixpoint path_scan (s : string) : bool :=
  match s with
  | EmptyString => true
  | String c s' => is_path_char c && path_scan s'
  end.

(** Splits at the first [/]: the part before it, and the rest from it on. *)
Fixpoint split_host (s : string) : string * string :=
  match s with
  | EmptyString => (EmptyString, EmptyString)
  | String c s' =>
      if Ascii.eqb c "/" then (EmptyString, s)
      else let '(h, r) := split_host s' in (String c h, r)
  end.

Definition plain_http_url (s : string) : bool :=
  match (match strip_prefix "http://" s with
         | Some r => Some r
         | None => strip_prefix "https://" s
         end) with
  | Some r =>
      let '(h, p) := split_host r in
      host_scan h false false && (String.length h <=? 63)%nat && path_scan p
      && (String.length s <=? 2083)%nat
  | None => false
  end.

Definition http_url (s : string) : option bool :=
  if negb (has_colon s) then Some false
  else if plain_http_url s then Some true
  else None.

(** ** Construction of an instance *)

Inductive verdict :=
  | Accept (v : value)
  | Reject
  | Unknown.

Definition is_VStr (v : value) : bool :=
  match v with VStr _ => true | _ => false end.

Definition is_finite (f : spec_float) : bool :=
  match f with S754_zero _ | S754_finite _ _ _ => true | _ => false end.

(** The value a field of type [t] takes from the input [v]. *)
Fixpoint coerce (t : ftype) (v : value) : verdict :=
  match t, v with
  | TOptional _, VNull => Accept VNull
  | TOptional t', _ => coerce t' v
  | TStr, VStr s => Accept (VStr s)
  | TStr, _ => Reject
  | TInt, VInt z => Accept (VInt z)
  | TInt, VBool b => Accept (VInt (if b then 1 else 0))
  | TInt, (VFloat _ | VStr _) => Unknown
  | TInt, _ => Reject
  | TFloat, VFloat f => Accept (VFloat f)
  | TFloat, VInt z =>
      if is_finite (float_of_Z z) then Accept (VFloat (float_of_Z z)) else Reject
  | TFloat, VBool b => Accept (VFloat (float_of_Z (if b then 1 else 0)))
  | TFloat, VStr _ => Unknown
  | TFloat, _ => Reject
  | TBool, VBool b => Accept (VBool b)
  | TBool, (VInt _ | VFloat _ | VStr _) => Unknown
  | TBool, _ => Reject
  | TDatetime, VDatetime d => Accept (VDatetime d)
  | TDatetime, (VInt _ | VFloat _ | VStr _ | VBool _) => Unknown
  | TDatetime, _ => Reject
  | THttpUrl, (VStr s | VUrl s) =>
      match http_url s with
      | Some true => Accept (VUrl s)
      | Some false => Reject
      | None => Unknown
      end
  | THttpUrl, _ => Reject
  | TListStr, VList l => if forallb is_VStr l then Accept (VList l) else Reject
  | TListStr, _ => Reject
  end.

(** The [ge=] constraint, checked on the coerced value. *)
Definition check_ge (bound : option Z) (v : value) : verdict :=
  match bound, v with
  | Some b, VFloat f => if SFleb (float_of_Z b) f then Accept v else Reject
  | Some b, VInt z => if (b <=? z)%Z then Accept v else Reject
  | _, _ => Accept v
  end.

(** One field of the instance; [now] is the reading of the clock. *)
Definition field_value (now : Z) (payload : dict) (f : field) : verdict :=
  match payload !! f_name f with
  | Some v =>
      match coerce (f_type f) v with
      | Accept v' => check_ge (f_ge f) v'
      | r => r
      end
  | None =>
      match f_default f with
      | Required => Reject
      | Default v | DefaultFactory v => Accept v
      | DefaultUtcNow => Accept (VDatetime now)
      end
  end.

Definition is_reject (r : verdict) : bool :=
  match r with Reject => true | _ => false end.
Definition is_unknown (r : verdict) : bool :=
  match r with Unknown => true | _ => false end.

Definition rejected (now : Z) (payload : dict) (fs : list field) : list string :=
  f_name <$> List.filter (λ f, is_reject (field_value now payload f)) fs.

Fixpoint accepted (now : Z) (payload : dict) (fs : list field) : dict :=
  match fs with
  | [] => ∅
  | f :: fs' =>
      match field_value now payload f with
      | Accept v => <[f_name f := v]> (accepted now payload fs')
      | _ => accepted now payload fs'
      end
  end.

(** An instance of a model: its class and its field values. *)
Record instance := Instance {
  inst_model : model;
  inst_fields : gmap string value
}.

(** Calling the class on a payload: every declared field is coerced and checked; keys of
    the payload that are not declared are ignored.  A [ValidationError]
    names the fields decided to be rejected: a field whose verdict is
    [Unknown] is not in the list, also where the library would report it
    next to a rejected one, so the list is a part of the library's and
    never names a field the library accepts. *)
Definition construct (m : model) (now : Z) (payload : dict) : outcome instance :=
  let fs := model_fields m in
  match rejected now payload fs with
  | (_ :: _) as bad => Fail (ValidationError bad)
  | [] =>
      if existsb (λ f, is_unknown (field_value now payload f)) fs
      then Fail Unmodelled
      else Ok (Instance m (accepted now payload fs))
  end.

(** [instance.model_dump()] *)
Definition model_dump (i : instance) : dict := inst_fields i.

End Schemas.

(* ===================================================================== *)
(** * Document store adapter *)
(* ===================================================================== *)

Module Store.
Import Schemas.

(** Identifiers assigned by the store: 12-byte values. *)
Definition ObjectId := N.

Definition hex_digit (n : N) : ascii :=
  match String.get (N.to_nat n) "0123456789abcdef" with
  | Some c => c
  | None => "0"%char
  end.

Fixpoint hex_fixed (digits : nat) (n : N) (acc : string) : string :=
  match digits with
  | O => acc
  | S k => hex_fixed k (n / 16)%N (String (hex_digit (n mod 16)%N) acc)
  end.

(** [str(oid)]: 24 hexadecimal digits. *)
Definition ObjectId_str (o : ObjectId) : string := hex_fixed 24 o EmptyString.

(** A document as the driver hands it over: a [dict] whose ["_id"] entry,
    when present, holds the identifier the store assigned; [doc_fields] are
    the other entries. *)
Record document := Doc {
  doc_id : option ObjectId;
  doc_fields : gmap string value
}.

(** [len(doc) == 0] *)
Definition doc_is_empty (d : document) : bool :=
  match doc_id d with
  | Some _ => false
  | None => Nat.eqb (size (doc_fields d)) 0
  end.

(** The store: one list of documents per collection, in insertion order,
    and the next identifier to hand out. *)
Record database := Database {
  collections : gmap string (list document);
  next_oid : ObjectId
}.

(** The process-wide [db]: [None] when there is no live connection. *)
Definition connection := option database.

Definition collection (d : database) (name : string) : list document :=
  default [] (collections d !! name).

(** The predicate shapes the router builds, per field. *)
Inductive condition :=
  | CEqStr (s : string)          (* [{field: s}] with [s] a string *)
  | CEqBool (b : bool)           (* [{field: b}] with [b] a boolean *)
  | CRegex (p o : string)        (* [{field: {"$regex": p, "$options": o}}] *)
  | CInStr (ss : list string).   (* [{field: {"$in": ss}}] *)

(** A test on strings applies to a string field, and to a list field when
    one of its elements passes. *)
Definition str_test (t : string → bool) (fv : option value) : bool :=
  match fv with
  | Some (VStr s) => t s
  | Some (VList l) =>
      existsb (λ v, match v with VStr s => t s | _ => false end) l
  | _ => false
  end.

Definition bool_test (b : bool) (fv : option value) : bool :=
  match fv with
  | Some (VBool b') => Bool.eqb b b'
  | Some (VList l) =>
      existsb (λ v, match v with VBool b' => Bool.eqb b b' | _ => false end) l
  | _ => false
  end.

Definition compile (c : condition) : option (option value → bool) :=
  match c with
  | CEqStr s => Some (str_test (String.eqb s))
  | CEqBool b => Some (bool_test b)
  | CRegex p o => str_test <$> Text.re_search p o
  | CInStr ss => Some (str_test (λ s, existsb (String.eqb s) ss))
  end.

(** A filter is a conjunction of conditions, one per field. *)
Definition compile_filter (filt : gmap string condition)
    : option (document → bool) :=
  tests ← mapM (λ kc, (λ t, (kc.1, t)) <$> compile kc.2) (map_to_list filt);
  Some (λ d, forallb (λ kt, kt.2 (doc_fields d !! kt.1)) tests).

(** Modelled from the spec: [get_documents] of the store adapter
    ([database.py]) is not part of the sources.  It loads up to [limit]
    documents matching the filter from the named collection, in insertion
    order; no match gives the empty sequence; without a live connection it
    fails with [StoreUnavailable]. *)
Definition get_documents (collection_name : string)
    (filter_dict : gmap string condition) (limit : Z) (db : connection)
    : outcome (list document) :=
  match db with
  | None => Fail StoreUnavailable
  | Some d =>
      match compile_filter filter_dict with
      | None => Fail Unmodelled
      | Some test =>
          Ok (take (Z.to_nat limit) (List.filter test (collection d collection_name)))
      end
  end.

(** Modelled from the spec: [create_document] of the store adapter
    ([database.py]) is not part of the sources.  It serializes the fields
    of the entity (defaulted ones included) into a document, inserts it
    into the named collection and returns the identifier the store
    generated, as a string; without a live connection it fails with
    [StoreUnavailable]. *)
Definition create_document (collection_name : string) (data : instance)
    (db : connection) : outcome string * connection :=
  match db with
  | None => (Fail StoreUnavailable, db)
  | Some d =>
      let oid := next_oid d in
      let doc := Doc (Some oid) (model_dump data) in
      (Ok (ObjectId_str oid),
       Some (Database
               (<[collection_name := (collection d collection_name ++ [doc])%list]>
                  (collections d))
               (N.succ oid)))
  end.

End Store.

(* ===================================================================== *)
(** * Request router ([main.py]) *)
(* ===================================================================== *)

Module Router.
Import Schemas Store.

Definition _collection_name (model_cls : model) : string :=
  Text.lower (class_name model_cls).

Definition _serialize (doc : document) : document :=
  if doc_is_empty doc then doc
  else
    let d := doc in
    match doc_id d with
    | Some _id => Doc None (<["id" := VStr (ObjectId_str _id)]> (doc_fields d))
    | None => d
    end.

(** Truth value of an [Optional[str]]: [None] and [""] are false. *)
Definition truthy (p : option string) : option string :=
  match p with
  | Some s => if String.eqb s "" then None else Some s
  | None => None
  end.

(** [if p: filt[key] = mk(p)] *)
Definition set_if (key : string) (mk : string → condition) (p : option string)
    (filt : gmap string condition) : gmap string condition :=
  match truthy p with
  | Some s => <[key := mk s]> filt
  | None => filt
  end.

(** [if p is not None: filt[key] = p] *)
Definition set_if_not_none (key : string) (p : option bool)
    (filt : gmap string condition) : gmap string condition :=
  match p with
  | Some b => <[key := CEqBool b]> filt
  | None => filt
  end.

(** [[_serialize(d) for d in docs]] *)
Definition serialized (r : outcome (list document)) : outcome (list document) :=
  r ≫= λ docs : list document, Ok (_serialize <$> docs).

(** Each list handler builds its filter, calls [get_documents] and
    serializes the result; the filter of each handler is named apart. *)

Definition list_items_filt (q : option string) : gmap string condition :=
  set_if "name" (λ q, CRegex q "i") q ∅.

Definition list_items (q : option string) (limit : Z) (db : connection)
    : outcome (list document) :=
  let filt := list_items_filt q in
  serialized (get_documents (_collection_name Item) filt limit db).

Definition list_staff_filt (role team : option string) (active : option bool)
    : gmap string condition :=
  let filt := set_if "role" CEqStr role ∅ in
  let filt := set_if "team" CEqStr team filt in
  set_if_not_none "active" active filt.

Definition list_staff (role team : option string) (active : option bool)
    (limit : Z) (db : connection) : outcome (list document) :=
  let filt := list_staff_filt role team active in
  serialized (get_documents (_collection_name StaffMember) filt limit db).

Definition list_votes (limit : Z) (db : connection) : outcome (list document) :=
  serialized (get_documents (_collection_name VoteLink) ∅ limit db).

Definition list_events_filt (active : option bool) : gmap string condition :=
  set_if_not_none "active" active ∅.

Definition list_events (active : option bool) (limit : Z) (db : connection)
    : outcome (list document) :=
  let filt := list_events_filt active in
  serialized (get_documents (_collection_name Event) filt limit db).

Definition list_blogs_filt (tag : option string) (published : option bool)
    : gmap string condition :=
  let filt := set_if "tags" (λ tag, CInStr [tag]) tag ∅ in
  set_if_not_none "published" published filt.

Definition list_blogs (tag : option string) (published : option bool)
    (limit : Z) (db : connection) : outcome (list document) :=
  let filt := list_blogs_filt tag published in
  serialized (get_documents (_collection_name BlogPost) filt limit db).

Definition list_applications_filt (status : option string)
    : gmap string condition :=
  set_if "status" CEqStr status ∅.

Definition list_applications (status : option string) (limit : Z)
    (db : connection) : outcome (list document) :=
  let filt := list_applications_filt status in
  serialized (get_documents (_collection_name Application) filt limit db).

(** [now] is the reading of the clock, as every construction takes it. *)
Definition get_stats_summary (now : Z) (db : connection) : outcome document :=
  get_documents (_collection_name StatSummary) ∅ 1 db ≫= λ docs : list document,
  match docs with
  | d :: _ => Ok (_serialize d)
  | [] =>
      construct StatSummary now ∅ ≫= λ inst : instance,
      Ok (Doc None (model_dump inst))
  end.

Definition get_player_stats_filt (username : option string)
    : gmap string condition :=
  set_if "username" (λ username, CRegex ("^" +:+ username +:+ "$") "i")
    username ∅.

Definition get_player_stats (username : option string) (limit : Z)
    (db : connection) : outcome (list document) :=
  let filt := get_player_stats_filt username in
  serialized (get_documents (_collection_name PlayerStat) filt limit db).

Definition list_announcements_filt (visibility : option string)
    : gmap string condition :=
  set_if "visibility" CEqStr visibility ∅.

Definition list_announcements (visibility : option string) (limit : Z)
    (db : connection) : outcome (list document) :=
  let filt := list_announcements_filt visibility in
  serialized (get_documents (_collection_name Announcement) filt limit db).

Definition list_meetings (limit : Z) (db : connection) : outcome (list document) :=
  serialized (get_documents (_collection_name StaffMeeting) ∅ limit db).

Definition list_users_filt (role : option string) : gmap string condition :=
  set_if "roles" (λ role, CInStr [role]) role ∅.

Definition list_users (role : option string) (limit : Z) (db : connection)
    : outcome (list document) :=
  let filt := list_users_filt role in
  serialized (get_documents (_collection_name UserAccount) filt limit db).

(** The body shared by the nine [create_*] handlers:
    [_id = create_document(_collection_name(M), x); return {"id": _id}]. *)
Definition create (m : model) (x : instance) (db : connection)
    : outcome document * connection :=
  let '(r, db') := create_document (_collection_name m) x db in
  (r ≫= λ _id : string, Ok (Doc None {["id" := VStr _id]}), db').

Definition create_item := create Item.
Definition create_staff := create StaffMember.
Definition create_vote := create VoteLink.
Definition create_event := create Event.
Definition create_blog := create BlogPost.
Definition create_application := create Application.
Definition create_announcement := create Announcement.
Definition create_meeting := create StaffMeeting.
Definition create_user := create UserAccount.

(** ** The routes

    [post_route m] is the handler registered for [POST] on the resource of
    [m], [get_route_defaults m] the list handler of [m] called with the
    declared defaults of all its query parameters; [None] when the model
    has no such route. *)

Definition post_route (m : model)
    : option (instance → connection → outcome document * connection) :=
  match m with
  | Item => Some create_item
  | StaffMember => Some create_staff
  | VoteLink => Some create_vote
  | Event => Some create_event
  | BlogPost => Some create_blog
  | Application => Some create_application
  | Announcement => Some create_announcement
  | StaffMeeting => Some create_meeting
  | UserAccount => Some create_user
  | StatSummary | PlayerStat => None
  end.

Definition get_route_defaults (m : model)
    : option (connection → outcome (list document)) :=
  match m with
  | Item => Some (list_items None 100)
  | StaffMember => Some (list_staff None None None 200)
  | VoteLink => Some (list_votes 20)
  | Event => Some (list_events None 50)
  | BlogPost => Some (list_blogs None (Some true) 50)
  | Application => Some (list_applications None 100)
  | PlayerStat => Some (get_player_stats None 100)
  | Announcement => Some (list_announcements (Some "public") 50)
  | StaffMeeting => Some (list_meetings 50)
  | UserAccount => Some (list_users None 100)
  | StatSummary => None
  end.

(** A [POST] request: the body is validated into an instance of the model
    the handler declares before the handler runs; when validation fails the
    handler is not called. *)
Definition post (m : model) (now : Z) (payload : dict) (db : connection)
    : option (outcome document * connection) :=
  handler ← post_route m;
  Some match construct m now payload with
       | Ok x => handler x db
       | Fail e => (Fail e, db)
       end.

(** ** The ten list operations as requests *)

Inductive list_request :=
  | GetItems (q : option string)
  | GetStaff (role team : option string) (active : option bool)
  | GetVotes
  | GetEvents (active : option bool)
  | GetBlogs (tag : option string) (published : option bool)
  | GetApplications (status : option string)
  | GetPlayerStats (username : option string)
  | GetAnnouncements (visibility : option string)
  | GetMeetings
  | GetUsers (role : option string).

Definition run_list (req : list_request) (limit : Z) (db : connection)
    : outcome (list document) :=
  match req with
  | GetItems q => list_items q limit db
  | GetStaff role team active => list_staff role team active limit db
  | GetVotes => list_votes limit db
  | GetEvents active => list_events active limit db
  | GetBlogs tag published => list_blogs tag published limit db
  | GetApplications status => list_applications status limit db
  | GetPlayerStats username => get_player_stats username limit db
  | GetAnnouncements visibility => list_announcements visibility limit db
  | GetMeetings => list_meetings limit db
  | GetUsers role => list_users role limit db
  end.

Definition request_model (req : list_request) : model :=
  match req with
  | GetItems _ => Item
  | GetStaff _ _ _ => StaffMember
  | GetVotes => VoteLink
  | GetEvents _ => Event
  | GetBlogs _ _ => BlogPost
  | GetApplications _ => Application
  | GetPlayerStats _ => PlayerStat
  | GetAnnouncements _ => Announcement
  | GetMeetings => StaffMeeting
  | GetUsers _ => UserAccount
  end.

Definition request_filter (req : list_request) : gmap string condition :=
  match req with
  | GetItems q => list_items_filt q
  | GetStaff role team active => list_staff_filt role team active
  | GetEvents active => list_events_filt active
  | GetBlogs tag published => list_blogs_filt tag published
  | GetApplications status => list_applications_filt status
  | GetPlayerStats username => get_player_stats_filt username
  | GetAnnouncements visibility => list_announcements_filt visibility
  | GetUsers role => list_users_filt role
  | GetVotes | GetMeetings => ∅
  end.

(** The documents of the request's collection that its filter selects,
    when the filter is within the model. *)
Definition matching (req : list_request) (d : database) : option (list document) :=
  test ← compile_filter (request_filter req);
  Some (List.filter test (collection d (_collection_name (request_model req)))).

(** ** Reading documents *)

(** The string field [k] of a document, if it has one. *)
Definition str_field (k : string) (d : document) : option string :=
  match doc_fields d !! k with
  | Some (VStr s) => Some s
  | _ => None
  end.

(** The [roles] list of a stored UserAccount. *)
Definition roles_of (d : document) : option (list value) :=
  match doc_fields d !! "roles" with
  | Some (VList l) => Some l
  | _ => None
  end.

Definition has_role (r : string) (d : document) : bool :=
  match roles_of d with
  | Some l => existsb (λ v, match v with VStr s => String.eqb r s | _ => false end) l
  | None => false
  end.

(** The response is a list that contains the object [x]. *)
Definition returned (x : document) (r : outcome (list document)) : Prop :=
  ∃ out, r = Ok out ∧ x ∈ out.

(** The connection after a request. *)
Definition store_after {A} (r : option (A * connection)) : connection :=
  match r with
  | Some (_, db) => db
  | None => None
  end.

End Router.

(* ===================================================================== *)
(** * Reference values and sample stores *)
(* ===================================================================== *)

Module Samples.
Import Schemas Store Router.

(** The declared defaults of StatSummary. *)
Definition stat_summary_defaults : dict :=
  {[ "online_players" := VInt 0;
     "total_players" := VInt 0;
     "total_money" := VInt 0;
     "tps" := VFloat (float_of_Z 20);
     "gamemode" := VStr "Citybuild" ]}.

(** A number below zero. *)
Definition negative (v : value) : bool :=
  match v with
  | VFloat f => SFltb f (float_of_Z 0)
  | VInt z => (z <? 0)%Z
  | _ => false
  end.

(** A connected store without any document. *)
Definition empty_store : connection := Some (Database ∅ 0%N).

(** The store after [n] successful [POST]s of the same payload. *)
Definition posted (m : model) (payload : dict) (n : nat) : connection :=
  Nat.iter n (λ db, store_after (post m 0%Z payload db)) empty_store.

Definition sword : dict :=
  {[ "name" := VStr "Diamond Sword"; "price" := VInt 5 ]}.

Definition cursed_sword : dict :=
  {[ "name" := VStr "Diamond Sword"; "price" := VInt (-1) ]}.

Definition vote_site (url : string) : dict :=
  {[ "name" := VStr "Server list"; "url" := VStr url ]}.

Definition draft_post : dict :=
  {[ "title" := VStr "Season 2"; "content" := VStr "Soon.";
     "author" := VStr "Notch"; "published" := VBool false ]}.

Definition staff_notice : dict :=
  {[ "title" := VStr "Rota"; "message" := VStr "Meeting at 8";
     "visibility" := VStr "staff" ]}.

Definition public_notice : dict :=
  {[ "title" := VStr "Event"; "message" := VStr "Drop party";
     "visibility" := VStr "public" ]}.

Definition staff_user : dict :=
  {[ "discord_id" := VStr "42"; "username" := VStr "Alex";
     "roles" := VList [VStr "player"; VStr "staff"] ]}.

Definition player_user : dict :=
  {[ "discord_id" := VStr "7"; "username" := VStr "Steve" ]}.

(** A staff account and a plain player account, created in this order. *)
Definition two_users : connection :=
  store_after (post UserAccount 0%Z player_user (posted UserAccount staff_user 1)).

(** A stored PlayerStat; the program has no route that creates one. *)
Definition player_stat (oid : ObjectId) (username : string) : document :=
  Doc (Some oid)
    {[ "username" := VStr username; "money" := VInt 0;
       "playtime_hours" := VInt 0; "last_seen" := VNull ]}.

Definition players (docs : list document) : connection :=
  Some (Database {[ "playerstat" := docs ]} (N.of_nat (length docs))).

(** A stored StatSummary. *)
Definition summary_doc : document :=
  Doc (Some 0%N)
    {[ "online_players" := VInt 12; "total_players" := VInt 340;
       "total_money" := VFloat (float_of_Z 1000);
       "tps" := VFloat (float_of_Z 19); "gamemode" := VStr "Citybuild" ]}.

Definition summary_store : database :=
  Database {[ "statsummary" := [summary_doc] ]} 1%N.

(** The database behind a live connection. *)
Definition database_of (db : connection) : database :=
  default (Database ∅ 0%N) db.

(** The document a store holds at position [i] of a collection. *)
Definition stored (db : connection) (name : string) (i : nat) : document :=
  match db with
  | Some d => default (Doc None ∅) (collection d name !! i)
  | None => Doc None ∅
  end.

(** The value of ["id"] in a response object. *)
Definition id_of (o : document) : string :=
  default EmptyString (str_field "id" o).

(** No object of the response carries the identifier of [x]. *)
Definition id_absent (x : document) (r : outcome (list document)) : bool :=
  match r with
  | Ok out => forallb (λ o, negb (String.eqb (id_of o) (id_of x))) out
  | Fail _ => true
  end.

(** [n] stored PlayerStat documents of the same user name. *)
Definition same_players (username : string) (n : nat) : list document :=
  (λ i, player_stat (N.of_nat i) username) <$> seq 0 n.

End Samples.

(* ===================================================================== *)
(** * Service endpoints ([main.py]: [/], [/test], [/schema]) *)
(* ===================================================================== *)

Module Admin.
Import Schemas Store Router.

(** [root] *)
Definition root : gmap string string :=
  {[ "name" := "EZBuilds API"; "status" := "ok" ]}.

(** What [/test] looks at: the process-wide database handle with its name
    and the answer of [list_collection_names()], which is either the names
    or an exception, given by its text. *)
Record mongo_handle := MongoHandle {
  handle_name : string;
  handle_collections : string + list string
}.

(** The response of [/test]: a dict with these six keys throughout. *)
Record diagnosis := Diagnosis {
  backend : string;
  database_status : string;
  database_url : string;
  database_name : string;
  connection_status : string;
  collection_names : list string
}.

(** [s[:n]] on a string. *)
Definition str_prefix (n : nat) (s : string) : string := String.substring 0 n s.

(** [db] is the database handle, [DATABASE_URL] the value of the environment
    variable of that name ([None] when unset).  Reading the handle's name and
    the environment does not raise, so the outer handler of the source is
    never entered. *)
Definition test_database (db : option mongo_handle) (DATABASE_URL : option string)
    : diagnosis :=
  let response :=
    Diagnosis "✅ Running" "❌ Not Available" "❌ Not Set" "❌ Not Set"
      "Not Connected" [] in
  match db with
  | Some d =>
      let url :=
        match truthy DATABASE_URL with
        | Some _ => "✅ Set"
        | None => "❌ Not Set"
        end in
      match handle_collections d with
      | inr names =>
          Diagnosis (backend response) "✅ Connected & Working" url
            (handle_name d) "Connected" (take 15 names)
      | inl e =>
          Diagnosis (backend response)
            ("⚠️ Connected but error: " +:+ str_prefix 80 e) url
            (handle_name d) "Connected" (collection_names response)
      end
  | None => response
  end.

(** One entry of [/schema]. *)
Record SchemaInfo := MkSchemaInfo {
  info_name : string;
  info_fields : gmap string string
}.

(** The models [/schema] walks through, in its order. *)
Definition models : list model :=
  [ Item; StaffMember; VoteLink; Event; BlogPost; Application; StatSummary;
    PlayerStat; Announcement; StaffMeeting; UserAccount ].

(** [annotation_str] is [str] on a declared annotation; its texts depend on
    the versions of the language and of the validation library, so it is a
    parameter. *)
Definition get_schema (annotation_str : ftype → string) : list SchemaInfo :=
  (λ m,
     let fields :=
       foldl (λ (fields : gmap string string) f,
                <[f_name f := annotation_str (f_type f)]> fields)
         ∅ (model_fields m) in
     MkSchemaInfo (Text.lower (class_name m)) fields) <$> models.

End Admin.

(* ===================================================================== *)
(** * Shapes of values and of stored collections *)
(* ===================================================================== *)

Module Shapes.
Import Schemas Store Router.

(** [v] is a value of the declared type [t]. *)
Fixpoint has_type (t : ftype) (v : value) : bool :=
  match t, v with
  | TOptional _, VNull => true
  | TOptional t', _ => has_type t' v
  | TStr, VStr _ => true
  | TInt, VInt _ => true
  | TFloat, VFloat _ => true
  | TBool, VBool _ => true
  | TDatetime, VDatetime _ => true
  | THttpUrl, VUrl u => bool_decide (http_url u = Some true)
  | TListStr, VList l => forallb is_VStr l
  | _, _ => false
  end.

(** [v] respects the lower bound, if there is one. *)
Definition respects_ge (bound : option Z) (v : value) : Prop :=
  check_ge bound v = Accept v.

(** The names of the declared fields. *)
Definition field_names (m : model) : list string := f_name <$> model_fields m.

(** The fields without a default. *)
Definition required_fields (m : model) : list string :=
  f_name <$> List.filter (λ f, match f_default f with Required => true | _ => false end)
               (model_fields m).

(** A declared default is itself a value the field accepts unchanged. *)
Definition default_conforms (f : field) : Prop :=
  match f_default f with
  | Required => True
  | Default v | DefaultFactory v =>
      coerce (f_type f) v = Accept v ∧ check_ge (f_ge f) v = Accept v
  | DefaultUtcNow => f_type f = TDatetime
  end.

(** Every stored Item has a float price that is at least zero. *)
Definition item_prices_ok (db : connection) : Prop :=
  ∀ d doc,
    db = Some d → doc ∈ collection d (_collection_name Item) →
    ∃ p, doc_fields doc !! "price" = Some (VFloat p)
         ∧ SFleb (float_of_Z 0) p = true.

End Shapes.

(* ===================================================================== *)
(** * More sample payloads *)
(* ===================================================================== *)

Module MoreSamples.
Import Schemas Store Router Samples.

Definition moderator : dict :=
  {[ "username" := VStr "Alex"; "role" := VStr "Admin";
     "team" := VStr "Moderation" ]}.

Definition past_event : dict :=
  {[ "title" := VStr "Drop party"; "description" := VStr "At spawn";
     "starts_at" := VDatetime 1700000000; "active" := VBool false ]}.

Definition tagged_post : dict :=
  {[ "title" := VStr "Season 2"; "content" := VStr "Soon.";
     "author" := VStr "Notch"; "tags" := VList [VStr "news"; VStr "season"] ]}.

Definition application_form : dict :=
  {[ "applicant_discord_id" := VStr "42"; "applicant_name" := VStr "Alex";
     "role_applied" := VStr "Mod"; "motivation" := VStr "I like helping." ]}.

(** A payload with a key no model declares. *)
Definition sword_with_extra : dict := <["owner" := VStr "Steve"]> sword.

Definition axe : dict :=
  {[ "name" := VStr "Iron Axe"; "price" := VInt 3 ]}.

(** Two axes and then a sword, created in this order. *)
Definition shop : connection :=
  store_after (post Item 0%Z sword (posted Item axe 2)).

(** Three stored PlayerStat documents of different users. *)
Definition three_players : list document :=
  [player_stat 0%N "Steve"; player_stat 1%N "Notch"; player_stat 2%N "Alex"].

End MoreSamples.

(* ===================================================================== *)
(** * Facts about text and patterns *)
(* ===================================================================== *)

#[local] Arguments String.append !_ _ / : simpl nomatch.

Section TextFacts.
Import Text.

Lemma lower_app (a b : string) : lower (a +:+ b) = lower a +:+ lower b.
Proof. induction a as [|c a IH]; simpl; [done | by rewrite IH]. Qed.

(** A split of the lowered string comes from a split of the string. *)
Lemma lower_split (s a b : string) :
  lower s = a +:+ b → ∃ s1 s2, s = s1 +:+ s2 ∧ lower s1 = a ∧ lower s2 = b.
Proof.
  revert s. induction a as [|c a IH]; intros s H; simpl in H.
  - by exists EmptyString, s.
  - destruct s as [|d s]; simpl in H; [discriminate|].
    injection H as Hc Hs. destruct (IH _ Hs) as (s1 & s2 & -> & <- & <-).
    exists (String d s1), s2. simpl. by rewrite Hc.
Qed.

Lemma char_eq_caseless (c d : ascii) :
  char_eq true c d = true ↔ lower_char c = lower_char d.
Proof. unfold char_eq. apply Ascii.eqb_eq. Qed.

Lemma not_meta_parse (c : ascii) (rest : string) :
  is_meta c = false → re_parse (String c rest) = cons (ALit c) <$> re_parse rest.
Proof.
  unfold is_meta. intros H. apply orb_false_elim in H as [Hop H].
  simpl in H. repeat (apply orb_false_elim in H as [? H]).
  simpl. by repeat match goal with E : Ascii.eqb _ _ = false |- _ => rewrite E; clear E end; rewrite ?Hop.
Qed.

(** A plain string in front of a pattern is read as its own characters. *)
Lemma re_parse_plain_app (q rest : string) :
  plain q = true → re_parse (q +:+ rest) = app (lits q) <$> re_parse rest.
Proof.
  induction q as [|c q IH]; intros H.
  - change (EmptyString +:+ rest) with rest. destruct (re_parse rest); reflexivity.
  - simpl in H. apply andb_prop in H as [Hc Hq]. apply negb_true_iff in Hc.
    change (String c q +:+ rest) with (String c (q +:+ rest)).
    rewrite (not_meta_parse _ _ Hc), (IH Hq). destruct (re_parse rest); reflexivity.
Qed.

Lemma append_empty_r (s : string) : s +:+ EmptyString = s.
Proof. induction s as [|c s IH]; simpl; [done | by rewrite IH]. Qed.

Lemma lower_empty (s : string) : lower s = EmptyString → s = EmptyString.
Proof. by destruct s. Qed.

(** Literal atoms in front of a tail [r] whose matching does not depend on
    the position: the subject starts with the literal, up to letter case,
    and the tail matches what follows. *)
Lemma match_here_lits (r : list atom) (P : string → bool) :
  (∀ b s, match_here true r b s = P s) →
  ∀ q b s,
    match_here true (lits q ++ r) b s = true ↔
    ∃ s1 s2, s = s1 +:+ s2 ∧ lower s1 = lower q ∧ P s2 = true.
Proof.
  intros Hr. induction q as [|a q IH]; intros b s.
  - simpl. rewrite Hr. split.
    + intros HP. by exists EmptyString, s.
    + intros (s1 & s2 & -> & Hl & HP). by rewrite (lower_empty _ Hl).
  - cbn [lits app match_here]. destruct s as [|d s].
    + split; [done|]. intros (s1 & s2 & Hs & Hl & _).
      destruct s1; simpl in *; discriminate.
    + rewrite andb_true_iff, char_eq_caseless, IH. split.
      * intros (Hc & s1 & s2 & -> & Hl & HP).
        exists (String d s1), s2. simpl. by rewrite Hl, Hc.
      * intros (s1 & s2 & Hs & Hl & HP).
        destruct s1 as [|e s1]; simpl in *; [discriminate|].
        injection Hs as -> ->. injection Hl as Hc Hl. eauto 10.
Qed.

(** Searching a literal pattern, caseless, is the substring test. *)
Lemma search_from_lits (q : string) (b : bool) (s : string) :
  search_from true (lits q) b s = true ↔ ci_substring q s.
Proof.
  assert (Hm : ∀ b s, match_here true (lits q) b s = true ↔
                      ∃ s1 s2, s = s1 +:+ s2 ∧ lower s1 = lower q).
  { intros b' s'. rewrite <- (app_nil_r (lits q)).
    rewrite (match_here_lits [] (λ _, true)); [|done].
    split; [intros (s1 & s2 & ? & ? & _) | intros (s1 & s2 & ? & ?)]; eauto 10. }
  unfold ci_substring. revert b. induction s as [|c s IH]; intros b.
  - simpl. rewrite orb_false_r, Hm. split.
    + intros (s1 & s2 & Hs & Hl). exists EmptyString, EmptyString.
      destruct s1; [|discriminate]. simpl in Hl. by rewrite <- Hl.
    + intros (pre & post & H). exists EmptyString, EmptyString. split; [done|].
      destruct pre; [|discriminate]. simpl in H.
      destruct (lower q); [done | discriminate].
  - cbn [search_from]. rewrite orb_true_iff, Hm, IH. split.
    + intros [(s1 & s2 & Hs & Hl) | (pre & post & H)].
      * exists EmptyString, (lower s2). rewrite Hs, lower_app, Hl. done.
      * exists (String (lower_char c) pre), post. simpl. by rewrite H.
    + intros (pre & post & H). destruct pre as [|a pre].
      * left. change (lower (String c s) = lower q +:+ post) in H.
        apply lower_split in H as (s1 & s2 & Hs & Hl & _). eauto.
      * right. simpl in H. injection H as _ H. eauto.
Qed.

(** A pattern that starts with [^] matches nowhere past the start. *)
Lemma search_bol_later (c : bool) (r : list atom) (s : string) :
  search_from c (ABol :: r) false s = false.
Proof. induction s as [|d s IH]; simpl; [done | exact IH]. Qed.

Lemma ends_with_newline_app (s1 : string) :
  ends_with_newline (s1 +:+ String newline EmptyString) = true.
Proof.
  induction s1 as [|c s1 IH]; [done|].
  simpl. simpl in IH. rewrite IH.
  by destruct (s1 +:+ String newline EmptyString) eqn:E; [destruct s1; discriminate|].
Qed.

(** The pattern [^u$] with a literal [u], caseless, on a subject that does
    not end with a line feed, is equality up to letter case. *)
Lemma search_anchored (u s : string) :
  ends_with_newline s = false →
  search_from true (ABol :: lits u ++ [AEol]) true s = true ↔ ci_equal s u.
Proof.
  intros Hnl.
  assert (Hm : search_from true (ABol :: lits u ++ [AEol]) true s
               = match_here true (lits u ++ [AEol]) true s).
  { destruct s as [|d s]; cbn [search_from match_here andb];
      [apply orb_false_r | rewrite search_bol_later; apply orb_false_r]. }
  rewrite Hm, (match_here_lits [AEol] at_eol).
  2:{ intros b' s'. by destruct s' as [|? [|? ?]]; simpl; rewrite ?andb_true_r. }
  unfold ci_equal. split.
  - intros (s1 & s2 & -> & Hl & He). destruct s2 as [|d [|? ?]]; [..|done].
    + by rewrite append_empty_r.
    + simpl in He. apply Ascii.eqb_eq in He as ->.
      by rewrite ends_with_newline_app in Hnl.
  - intros H. exists s, EmptyString. by rewrite append_empty_r.
Qed.

End TextFacts.

(* ===================================================================== *)
(** * Facts about the store adapter and the serializer *)
(* ===================================================================== *)

Section StoreFacts.
Import Schemas Store Router.

Lemma filter_all {A} (l : list A) : List.filter (λ _, true) l = l.
Proof. induction l as [|a l IH]; simpl; [done | by rewrite IH]. Qed.

Lemma length_filter_le {A} (t : A → bool) (l : list A) :
  (length (List.filter t l) ≤ length l)%nat.
Proof. induction l as [|a l IH]; simpl; [lia | destruct (t a); simpl; lia]. Qed.

Lemma compile_filter_empty : compile_filter ∅ = Some (λ _, true).
Proof. unfold compile_filter. by rewrite map_to_list_empty. Qed.

Lemma compile_filter_singleton (k : string) (c : condition) (t : option value → bool) :
  compile c = Some t →
  compile_filter {[k := c]} = Some (λ d, t (doc_fields d !! k) && true).
Proof.
  intros H. unfold compile_filter. rewrite map_to_list_singleton. simpl.
  by rewrite H.
Qed.

(** Reading a collection without a filter. *)
Lemma get_documents_all (name : string) (limit : Z) (d : database) :
  get_documents name ∅ limit (Some d) = Ok (take (Z.to_nat limit) (collection d name)).
Proof.
  unfold get_documents. by rewrite compile_filter_empty, filter_all.
Qed.

(** Reading a collection with a condition on one field. *)
Lemma get_documents_one (name k : string) (c : condition) (t : option value → bool)
    (limit : Z) (d : database) :
  compile c = Some t →
  get_documents name {[k := c]} limit (Some d)
  = Ok (take (Z.to_nat limit)
          (List.filter (λ x, t (doc_fields x !! k)) (collection d name))).
Proof.
  intros H. unfold get_documents. rewrite (compile_filter_singleton _ _ _ H).
  do 2 f_equal. apply filter_ext. intros x. apply andb_true_r.
Qed.

Lemma serialize_stored (doc : document) (oid : ObjectId) :
  doc_id doc = Some oid →
  _serialize doc = Doc None (<["id" := VStr (ObjectId_str oid)]> (doc_fields doc)).
Proof. intros H. unfold _serialize, doc_is_empty. by rewrite H. Qed.

(** Serialization leaves every entry but ["id"] as it is. *)
Lemma serialize_lookup (doc : document) (k : string) :
  k ≠ "id" → doc_fields (_serialize doc) !! k = doc_fields doc !! k.
Proof.
  intros Hk. unfold _serialize. destruct (doc_is_empty doc); [done|].
  destruct (doc_id doc); [|done]. simpl. by rewrite lookup_insert_ne.
Qed.

Lemma elem_of_filter {A} (t : A → bool) (l : list A) (x : A) :
  x ∈ List.filter t l ↔ x ∈ l ∧ t x = true.
Proof. rewrite !list_elem_of_In. apply filter_In. Qed.

(** With a test that reads one field other than ["id"], a stored document
    shows up serialized in the selection exactly when it passes the test. *)
Lemma returned_iff (k : string) (t : option value → bool)
    (docs : list document) (doc : document) :
  k ≠ "id" → doc ∈ docs →
  _serialize doc ∈ _serialize <$> List.filter (λ x, t (doc_fields x !! k)) docs
  ↔ t (doc_fields doc !! k) = true.
Proof.
  intros Hk Hin. rewrite list_elem_of_fmap. split.
  - intros (y & Heq & Hy). apply elem_of_filter in Hy as [_ Hy].
    by rewrite <- (serialize_lookup doc k Hk), Heq, serialize_lookup.
  - intros Ht. exists doc. split; [done|]. by apply elem_of_filter.
Qed.

End StoreFacts.

(* ===================================================================== *)
(** * Facts about the conversion of integers to floats *)
(* ===================================================================== *)

Section FloatFacts.

Lemma iter_pos_nat {A} (f : A → A) (p : positive) (x : A) :
  SpecFloat.iter_pos f p x = Nat.iter (Pos.to_nat p) f x.
Proof.
  revert x. induction p as [p IH|p IH|]; intros x; cbn [SpecFloat.iter_pos].
  - rewrite !IH, Pos2Nat.inj_xI. rewrite <- Nat.iter_add.
    replace (Pos.to_nat p + Pos.to_nat p)%nat with (2 * Pos.to_nat p)%nat by lia.
    by rewrite Nat.iter_succ_r.
  - rewrite !IH, Pos2Nat.inj_xO. rewrite <- Nat.iter_add. f_equal. lia.
  - reflexivity.
Qed.

(** Shifting a mantissa by fewer places than it has digits leaves a
    positive mantissa. *)
Lemma shr_iter_positive (k : nat) (m : positive) (r s : bool) :
  (Z.of_nat k < Zpos (digits2_pos m))%Z →
  ∃ m', shr_m (Nat.iter k shr_1 (Build_shr_record (Zpos m) r s)) = Zpos m'.
Proof.
  revert m r s. induction k as [|k IH]; intros m r s Hk.
  - by exists m.
  - rewrite Nat.iter_succ_r. destruct m as [p|p|]; cbn [shr_1 digits2_pos] in *.
    + apply IH. lia.
    + apply IH. lia.
    + lia.
Qed.

(** Away from the smallest exponents, the shift to the working precision
    keeps a positive mantissa positive and does not lower the exponent. *)
Lemma shr_fexp_positive (m : positive) (e : Z) (l : location) :
  (-1020 ≤ e)%Z →
  ∃ m', shr_m (shr_fexp prec emax (Zpos m) e l).1 = Zpos m'
        ∧ (e ≤ (shr_fexp prec emax (Zpos m) e l).2)%Z.
Proof.
  intros He. unfold shr_fexp, shr, fexp, emin, Zdigits2, prec, emax.
  destruct (Z.max (Zpos (digits2_pos m) + e - 53) (3 - 1024 - 53) - e)%Z
    as [|p|p] eqn:En; cbn [fst snd].
  - destruct l as [|[]]; cbn; eauto with lia.
  - rewrite iter_pos_nat.
    destruct (shr_record_of_loc (Zpos m) l) as [m0 r s] eqn:El.
    assert (m0 = Zpos m) as -> by (destruct l as [|[]]; cbn in El; congruence).
    destruct (shr_iter_positive (Pos.to_nat p) m r s) as [m' Hm']; [lia|].
    exists m'. split; [done | lia].
  - destruct l as [|[]]; cbn; eauto with lia.
Qed.

Lemma round_nearest_even_positive (m : positive) (l : location) :
  ∃ m', round_nearest_even (Zpos m) l = Zpos m'.
Proof.
  destruct l as [|[]]; cbn [round_nearest_even]; eauto.
  destruct (Z.even (Zpos m)); eauto.
Qed.

Lemma binary_round_aux_sign (sx : bool) (m : positive) (e : Z) :
  (-1020 ≤ e)%Z →
  (∃ m' e', binary_round_aux prec emax sx (Zpos m) e loc_Exact = S754_finite sx m' e')
  ∨ binary_round_aux prec emax sx (Zpos m) e loc_Exact = S754_infinity sx.
Proof.
  intros He. unfold binary_round_aux.
  destruct (shr_fexp_positive m e loc_Exact He) as (m1 & Hm1 & He1).
  destruct (shr_fexp prec emax (Zpos m) e loc_Exact) as [mrs1 e1]. cbn [fst snd] in *.
  rewrite Hm1.
  destruct (round_nearest_even_positive m1 (loc_of_shr_record mrs1)) as [m2 ->].
  destruct (shr_fexp_positive m2 e1 loc_Exact ltac:(lia)) as (m3 & Hm3 & _).
  destruct (shr_fexp prec emax (Zpos m2) e1 loc_Exact) as [mrs2 e2]. cbn [fst] in *.
  rewrite Hm3. destruct (e2 <=? emax - prec)%Z; eauto.
Qed.

(** The float of a whole number has the sign of the number. *)
Lemma binary_round_sign (sx : bool) (q : positive) :
  (∃ m' e', binary_round prec emax sx q 0 = S754_finite sx m' e')
  ∨ binary_round prec emax sx q 0 = S754_infinity sx.
Proof.
  unfold binary_round.
  destruct (shl_align q 0 (fexp prec emax (Zpos (digits2_pos q) + 0))) as [mz ez] eqn:E.
  apply binary_round_aux_sign.
  unfold shl_align, fexp, emin, prec, emax in E.
  destruct (Z.max (Zpos (digits2_pos q) + 0 - 53) (3 - 1024 - 53) - 0)%Z eqn:En;
    injection E as <- <-; lia.
Qed.

(** A whole number below zero converts to a float below zero, or to no
    finite float at all. *)
Lemma float_of_negative (z : Z) :
  (z < 0)%Z →
  SFltb (float_of_Z z) (float_of_Z 0) = true.
Proof.
  intros Hz. destruct z as [|q|q]; try lia.
  unfold float_of_Z, binary_normalize.
  by destruct (binary_round_sign true q) as [(m' & e' & ->) | ->].
Qed.

(** A whole number that is at least zero converts to a float that is at
    least zero. *)
Lemma float_of_nonnegative (z : Z) :
  (0 ≤ z)%Z →
  SFleb (float_of_Z 0) (float_of_Z z) = true.
Proof.
  intros Hz. destruct z as [|q|q]; try lia; [done|].
  unfold float_of_Z, binary_normalize.
  by destruct (binary_round_sign false q) as [(m' & e' & ->) | ->].
Qed.

End FloatFacts.

(* ===================================================================== *)
(** * Facts about construction *)
(* ===================================================================== *)

Section SchemaFacts.
Import Schemas Store Router Samples.

(** A rejected field makes the construction fail with a ValidationError
    that names it. *)
Lemma construct_rejects (m : model) (now : Z) (payload : dict) (f : field) :
  f ∈ model_fields m → field_value now payload f = Reject →
  ∃ fs, construct m now payload = Fail (ValidationError fs) ∧ f_name f ∈ fs.
Proof.
  intros Hf Hr. exists (rejected now payload (model_fields m)).
  assert (Hin : f_name f ∈ rejected now payload (model_fields m)).
  { unfold rejected. apply list_elem_of_fmap. exists f. split; [done|].
    apply elem_of_filter. by rewrite Hr. }
  split; [|done]. unfold construct.
  destruct (rejected now payload (model_fields m)); [|done].
  by apply not_elem_of_nil in Hin.
Qed.

(** When every declared field is accepted, the construction succeeds. *)
Lemma construct_accepts (m : model) (now : Z) (payload : dict) :
  Forall (λ f, ∃ v, field_value now payload f = Accept v) (model_fields m) →
  construct m now payload = Ok (Instance m (accepted now payload (model_fields m))).
Proof.
  intros H. unfold construct, rejected.
  assert (Hr : List.filter (λ f, is_reject (field_value now payload f)) (model_fields m) = []).
  { induction H as [|f fs [v Hv] _ IH]; simpl; [done | by rewrite Hv]. }
  assert (Hu : existsb (λ f, is_unknown (field_value now payload f)) (model_fields m) = false).
  { clear Hr. induction H as [|f fs [v Hv] _ IH]; simpl; [done | by rewrite Hv]. }
  by rewrite Hr, Hu.
Qed.

(** Below zero means not at least zero. *)
Lemma negative_not_ge (f : spec_float) :
  SFltb f (float_of_Z 0) = true → SFleb (float_of_Z 0) f = false.
Proof. by destruct f as [[]|[]| |[] ? ?]. Qed.

Lemma twenty : float_of_Z 20 = S754_finite false 5629499534213120 (-48).
Proof. reflexivity. Qed.

End SchemaFacts.

(* ===================================================================== *)
(** * The stats summary *)
(* ===================================================================== *)

Section Summary.
Import Schemas Store Router Samples.

Lemma summary_of_defaults (now : Z) :
  construct StatSummary now ∅ = Ok (Instance StatSummary stat_summary_defaults).
Proof. vm_compute. reflexivity. Qed.

Lemma summary_read (now : Z) (d : database) :
  get_stats_summary now (Some d)
  = match collection d (_collection_name StatSummary) with
    | first :: _ => Ok (_serialize first)
    | [] => Ok (Doc None stat_summary_defaults)
    end.
Proof.
  unfold get_stats_summary. rewrite get_documents_all.
  destruct (collection d (_collection_name StatSummary)) as [|first rest].
  - simpl. by rewrite summary_of_defaults.
  - reflexivity.
Qed.

(** C4. With a live store that holds no StatSummary document, the
    get-current operation answers the declared defaults
    (online_players = 0, total_players = 0, total_money = 0, tps = 20.0,
    gamemode = "Citybuild"); when the collection holds documents, it answers
    the first one, serialized. *)
Theorem C4_stats_summary (now : Z) (d : database) :
  (collection d (_collection_name StatSummary) = [] →
   get_stats_summary now (Some d)
   = Ok (Doc None {[ "online_players" := VInt 0;
                     "total_players" := VInt 0;
                     "total_money" := VInt 0;
                     "tps" := VFloat (S754_finite false 5629499534213120 (-48));
                     "gamemode" := VStr "Citybuild" ]})) ∧
  (∀ first rest,
     collection d (_collection_name StatSummary) = first :: rest →
     get_stats_summary now (Some d) = Ok (_serialize first)).
Proof.
  rewrite summary_read. split.
  - by intros ->.
  - by intros first rest ->.
Qed.

Lemma C4_stats_summary_witness :
  (get_stats_summary 0 (Some (Database ∅ 0%N)) = Ok (Doc None stat_summary_defaults)) ∧
  (get_stats_summary 0 (Some summary_store) = Ok (_serialize summary_doc)).
Proof.
  split.
  - apply (proj1 (C4_stats_summary 0 (Database ∅ 0%N))). reflexivity.
  - apply (proj2 (C4_stats_summary 0 summary_store) summary_doc []). reflexivity.
Defined.

(** C10. A response synthesized from the defaults has no [id] entry and
    exactly the five declared fields; a response made from a stored document
    carries the store identifier as the string entry [id], and every other
    entry as stored. *)
Theorem C10_summary_shape (now : Z) (d : database) :
  (collection d (_collection_name StatSummary) = [] →
   ∃ obj, get_stats_summary now (Some d) = Ok obj ∧
     doc_id obj = None ∧
     doc_fields obj !! "id" = None ∧
     dom (doc_fields obj)
     = {[ "online_players"; "total_players"; "total_money"; "tps"; "gamemode" ]}) ∧
  (∀ first rest oid,
     collection d (_collection_name StatSummary) = first :: rest →
     doc_id first = Some oid →
     ∃ obj, get_stats_summary now (Some d) = Ok obj ∧
       doc_id obj = None ∧
       doc_fields obj !! "id" = Some (VStr (ObjectId_str oid)) ∧
       ∀ k, k ≠ "id" → doc_fields obj !! k = doc_fields first !! k).
Proof.
  rewrite summary_read. split.
  - intros ->. eexists. split; [reflexivity|].
    split; [reflexivity|]. split; [reflexivity|].
    unfold stat_summary_defaults. simpl. rewrite !dom_insert_L, dom_singleton_L.
    set_solver.
  - intros first rest oid -> Hid. eexists. split; [reflexivity|].
    rewrite (serialize_stored _ _ Hid). simpl. split; [done|]. split.
    + apply lookup_insert_eq.
    + intros k Hk. by rewrite lookup_insert_ne.
Qed.

Lemma C10_summary_shape_witness :
  (∃ obj, get_stats_summary 0 (Some (Database ∅ 0%N)) = Ok obj ∧
     doc_id obj = None ∧
     doc_fields obj !! "id" = None ∧
     dom (doc_fields obj)
     = {[ "online_players"; "total_players"; "total_money"; "tps"; "gamemode" ]}) ∧
  (∃ obj, get_stats_summary 0 (Some summary_store) = Ok obj ∧
     doc_id obj = None ∧
     doc_fields obj !! "id" = Some (VStr "000000000000000000000000") ∧
     ∀ k, k ≠ "id" → doc_fields obj !! k = doc_fields summary_doc !! k).
Proof.
  split.
  - apply (proj1 (C10_summary_shape 0 (Database ∅ 0%N))). reflexivity.
  - apply (proj2 (C10_summary_shape 0 summary_store) summary_doc [] 0%N); reflexivity.
Defined.

End Summary.

(* ===================================================================== *)
(** * Validation *)
(* ===================================================================== *)

Section Validation.
Import Schemas Store Router Samples.

Ltac payload_lookup :=
  repeat first
    [ rewrite lookup_insert_eq
    | rewrite lookup_insert_ne by discriminate
    | rewrite lookup_singleton_eq
    | rewrite lookup_singleton_ne by discriminate
    | rewrite lookup_empty ].

(** Evaluates [field_value] on a payload given entry by entry. *)
Ltac field_values :=
  unfold field_value; cbn [f_name f_type f_default f_ge fld];
  payload_lookup; cbn [coerce check_ge].

(** C5. Constructing an Item whose price, a float or a whole number, is
    below zero fails with a ValidationError on [price]; constructing a
    VoteLink whose url is not a well-formed URL (such as "not-a-url") fails
    with a ValidationError on [url]; with a price that is at least zero
    (a float, or a whole number in the range of the floats), and with a
    well-formed URL, the construction succeeds and the instance holds those
    values. *)
Theorem C5_constraints (now : Z) :
  (∀ (payload : dict) (v : value),
     payload !! "price" = Some v → negative v = true →
     ∃ fs, construct Item now payload = Fail (ValidationError fs) ∧ "price" ∈ fs) ∧
  (∀ (payload : dict) (u : string),
     payload !! "url" = Some (VStr u) → http_url u = Some false →
     ∃ fs, construct VoteLink now payload = Fail (ValidationError fs) ∧ "url" ∈ fs) ∧
  http_url "not-a-url" = Some false ∧
  (∀ (name : string) (p : spec_float),
     SFleb (float_of_Z 0) p = true →
     construct Item now {[ "name" := VStr name; "price" := VFloat p ]}
     = Ok (Instance Item
             {[ "name" := VStr name; "price" := VFloat p; "category" := VNull;
                "description" := VNull; "image_url" := VNull ]})) ∧
  (∀ (name : string) (z : Z),
     (0 ≤ z)%Z → is_finite (float_of_Z z) = true →
     construct Item now {[ "name" := VStr name; "price" := VInt z ]}
     = Ok (Instance Item
             {[ "name" := VStr name; "price" := VFloat (float_of_Z z);
                "category" := VNull; "description" := VNull; "image_url" := VNull ]})) ∧
  (∀ (name u : string),
     http_url u = Some true →
     construct VoteLink now {[ "name" := VStr name; "url" := VStr u ]}
     = Ok (Instance VoteLink
             {[ "name" := VStr name; "url" := VUrl u; "description" := VNull ]})).
Proof.
  repeat apply conj.
  - intros payload v Hp Hneg.
    apply (construct_rejects Item now payload (Field "price" TFloat Required (Some 0%Z))).
    { set_solver. }
    unfold field_value. simpl f_name. rewrite Hp. simpl f_type. simpl f_ge.
    destruct v as [| |z|f| | | |]; try discriminate Hneg; cbn [negative] in Hneg;
      cbn [coerce].
    + destruct (is_finite (float_of_Z z)); [|done].
      apply Z.ltb_lt, float_of_negative in Hneg.
      cbn [check_ge]. by rewrite (negative_not_ge _ Hneg).
    + cbn [check_ge]. by rewrite (negative_not_ge _ Hneg).
  - intros payload u Hp Hu.
    apply (construct_rejects VoteLink now payload (fld "url" THttpUrl Required)).
    { set_solver. }
    unfold field_value. simpl f_name. rewrite Hp. simpl. by rewrite Hu.
  - reflexivity.
  - intros name p Hp. rewrite construct_accepts.
    + cbn [model_fields accepted]. field_values. rewrite Hp.
      cbn [f_name]. by rewrite insert_empty.
    + cbn [model_fields]. repeat apply Forall_cons_2; try apply Forall_nil_2;
        field_values; rewrite ?Hp; eauto.
  - intros name z Hz Hfin. apply float_of_nonnegative in Hz. rewrite construct_accepts.
    + cbn [model_fields accepted]. field_values. rewrite Hfin. cbn [check_ge].
      rewrite Hz. cbn [f_name]. by rewrite insert_empty.
    + cbn [model_fields]. repeat apply Forall_cons_2; try apply Forall_nil_2;
        field_values; rewrite ?Hfin; cbn [check_ge]; rewrite ?Hz; eauto.
  - intros name u Hu. rewrite construct_accepts.
    + cbn [model_fields accepted]. field_values. rewrite Hu.
      cbn [f_name]. by rewrite insert_empty.
    + cbn [model_fields]. repeat apply Forall_cons_2; try apply Forall_nil_2;
        field_values; rewrite ?Hu; eauto.
Qed.

Lemma C5_constraints_witness :
  (∃ fs, construct Item 0 cursed_sword = Fail (ValidationError fs) ∧ "price" ∈ fs) ∧
  (∃ fs, construct VoteLink 0 (vote_site "not-a-url") = Fail (ValidationError fs)
         ∧ "url" ∈ fs) ∧
  construct Item 0 {[ "name" := VStr "Diamond Sword"; "price" := VFloat (float_of_Z 5) ]}
  = Ok (Instance Item
          {[ "name" := VStr "Diamond Sword"; "price" := VFloat (float_of_Z 5);
             "category" := VNull; "description" := VNull; "image_url" := VNull ]}) ∧
  construct VoteLink 0 (vote_site "https://vote.example.org/mc/1")
  = Ok (Instance VoteLink
          {[ "name" := VStr "Server list";
             "url" := VUrl "https://vote.example.org/mc/1";
             "description" := VNull ]}).
Proof.
  destruct (C5_constraints 0) as (Hprice & Hurl & _ & Hitem & _ & Hvote).
  repeat apply conj.
  - apply (Hprice cursed_sword (VInt (-1))); reflexivity.
  - apply (Hurl (vote_site "not-a-url") "not-a-url"); reflexivity.
  - apply (Hitem "Diamond Sword" (float_of_Z 5)). reflexivity.
  - apply (Hvote "Server list" "https://vote.example.org/mc/1"). reflexivity.
Defined.

(** C6. For every model with a create operation, a request whose payload
    fails validation is answered with the ValidationError and the handler is
    not run: the store after the request is the store before it. *)
Theorem C6_validation_first (m : model) (now : Z) (payload : dict)
    (db : connection) (fs : list string)
    (handler : instance → connection → outcome document * connection) :
  post_route m = Some handler →
  construct m now payload = Fail (ValidationError fs) →
  post m now payload db = Some (Fail (ValidationError fs), db).
Proof.
  intros Hroute Hfail. unfold post. rewrite Hroute. simpl. by rewrite Hfail.
Qed.

Lemma C6_validation_first_witness :
  post Item 0 cursed_sword (posted Item sword 2)
  = Some (Fail (ValidationError ["price"]), posted Item sword 2).
Proof.
  apply (C6_validation_first Item 0 cursed_sword (posted Item sword 2)
           ["price"] create_item); reflexivity.
Defined.

End Validation.

(* ===================================================================== *)
(** * Limits and empty query parameters *)
(* ===================================================================== *)

Section Listing.
Import Schemas Store Router Samples.

(** Every list operation is one read of its collection with its filter. *)
Lemma run_list_unfold (req : list_request) (limit : Z) (db : connection) :
  run_list req limit db
  = serialized (get_documents (_collection_name (request_model req))
                  (request_filter req) limit db).
Proof. by destruct req. Qed.

(** C8. For each of the ten list operations, whatever its query
    parameters: when more than [k] stored documents match and [k] is
    positive, listing with limit [k] returns exactly [k] documents. *)
Theorem C8_limit (req : list_request) (k : Z) (d : database)
    (found : list document) :
  (0 < k)%Z →
  matching req d = Some found →
  Z.to_nat k < length found →
  ∃ out, run_list req k (Some d) = Ok out ∧ length out = Z.to_nat k.
Proof.
  intros Hk Hm Hlen. rewrite run_list_unfold. unfold matching in Hm.
  unfold get_documents.
  destruct (compile_filter (request_filter req)) as [test|]; [|done].
  simpl in Hm. injection Hm as <-. eexists. split; [reflexivity|].
  rewrite length_fmap, length_take. lia.
Qed.

Lemma C8_limit_witness :
  ∃ out, run_list (GetItems (Some "sword")) 2
           (Some (database_of (posted Item sword 5))) = Ok out
         ∧ length out = 2.
Proof.
  apply (C8_limit (GetItems (Some "sword")) 2 (database_of (posted Item sword 5))
           (default [] (matching (GetItems (Some "sword"))
                          (database_of (posted Item sword 5))))).
  - lia.
  - vm_compute. reflexivity.
  - vm_compute. lia.
Defined.

(** A query parameter that is the empty string leaves the filter as it is. *)
Lemma set_if_empty (key : string) (mk : string → condition)
    (filt : gmap string condition) :
  set_if key mk (Some EmptyString) filt = set_if key mk None filt.
Proof. reflexivity. Qed.

(** Without a filter a read returns the first [limit] documents of the
    collection, serialized. *)
Lemma unfiltered (name : string) (limit : Z) (d : database) :
  serialized (get_documents name ∅ limit (Some d))
  = Ok (_serialize <$> take (Z.to_nat limit) (collection d name)).
Proof. by rewrite get_documents_all. Qed.

(** C9. An empty string given for a string query parameter is treated as
    no value: announcements listed with visibility "" are read without any
    filter, so every stored announcement is returned whatever its
    visibility, which differs from the default visibility "public"; the
    same holds for q on items, role and team on staff, tag on blogs, status
    on applications, username on player stats and role on users. *)
Theorem C9_empty_string_is_absent (limit : Z) (db : connection) :
  list_announcements (Some "") limit db
  = serialized (get_documents (_collection_name Announcement) ∅ limit db) ∧
  (∀ d doc,
     db = Some d →
     doc ∈ collection d (_collection_name Announcement) →
     (length (collection d (_collection_name Announcement)) ≤ Z.to_nat limit)%nat →
     ∃ out, list_announcements (Some "") limit db = Ok out ∧ _serialize doc ∈ out) ∧
  list_announcements (Some "") 50 (posted Announcement staff_notice 1)
  ≠ list_announcements (Some "public") 50 (posted Announcement staff_notice 1) ∧
  list_items (Some "") limit db = list_items None limit db ∧
  (∀ team active,
     list_staff (Some "") team active limit db = list_staff None team active limit db) ∧
  (∀ role active,
     list_staff role (Some "") active limit db = list_staff role None active limit db) ∧
  (∀ published,
     list_blogs (Some "") published limit db = list_blogs None published limit db) ∧
  list_applications (Some "") limit db = list_applications None limit db ∧
  get_player_stats (Some "") limit db = get_player_stats None limit db ∧
  list_users (Some "") limit db = list_users None limit db.
Proof.
  repeat apply conj; try reflexivity.
  - intros d doc -> Hin Hlen. eexists. split.
    + unfold list_announcements, list_announcements_filt.
      rewrite set_if_empty. apply unfiltered.
    + rewrite take_ge by done. by apply list_elem_of_fmap_2.
  - vm_compute. discriminate.
Qed.

Lemma C9_empty_string_is_absent_witness :
  ∃ out, list_announcements (Some "") 50 (posted Announcement staff_notice 1) = Ok out
         ∧ _serialize (stored (posted Announcement staff_notice 1) "announcement" 0) ∈ out.
Proof.
  destruct (C9_empty_string_is_absent 50 (posted Announcement staff_notice 1))
    as (_ & H & _).
  apply (H (database_of (posted Announcement staff_notice 1))).
  - reflexivity.
  - vm_compute. apply list_elem_of_here.
  - vm_compute. lia.
Defined.

End Listing.


(* ===================================================================== *)
(** * Create, then list *)
(* ===================================================================== *)

Section CreateThenList.
Import Schemas Store Router Samples.

(** Reading a collection right after its first document was created. *)
Lemma read_after_create (name : string) (x : instance) (d : database)
    (filt : gmap string condition) (test : document → bool) (limit : Z) :
  compile_filter filt = Some test →
  collection d name = [] →
  (0 < limit)%Z →
  test (Doc (Some (next_oid d)) (model_dump x)) = true →
  serialized (get_documents name filt limit (create_document name x (Some d)).2)
  = Ok [Doc None (<["id" := VStr (ObjectId_str (next_oid d))]> (model_dump x))].
Proof.
  intros Hc Hempty Hlimit Htest. unfold create_document, get_documents.
  cbn [snd]. rewrite Hc. unfold collection at 1. cbn [collections].
  rewrite lookup_insert_eq. rewrite Hempty. unfold default, id. cbn [app List.filter].
  rewrite Htest, take_ge by (cbn [length]; lia). reflexivity.
Qed.

Lemma post_creates (m : model) (now : Z) (payload : dict) (x : instance)
    (d : database) :
  construct m now payload = Ok x →
  post_route m = Some (create m) →
  post m now payload (Some d)
  = Some (Ok (Doc None {["id" := VStr (ObjectId_str (next_oid d))]}),
          (create_document (_collection_name m) x (Some d)).2).
Proof. intros Hx Hr. unfold post. rewrite Hr. cbn. by rewrite Hx. Qed.

(** C1 (amended). For every entity type that has both a create and a list
    operation: creating a valid instance in a store without documents and
    then listing with no query parameters returns exactly one object, whose
    [id] is the identifier the create returned and whose other entries are
    those of the created instance -- for a BlogPost provided it is
    published, and for an Announcement provided its visibility is
    "public". *)
Theorem C1_create_then_list (m : model) (now : Z) (payload : dict)
    (x : instance) (d : database)
    (handler : instance → connection → outcome document * connection)
    (lister : connection → outcome (list document)) :
  post_route m = Some handler →
  get_route_defaults m = Some lister →
  construct m now payload = Ok x →
  (∀ name, collection d name = []) →
  (m = BlogPost → model_dump x !! "published" = Some (VBool true)) →
  (m = Announcement → model_dump x !! "visibility" = Some (VStr "public")) →
  ∃ db' obj,
    post m now payload (Some d)
    = Some (Ok (Doc None {["id" := VStr (ObjectId_str (next_oid d))]}), db') ∧
    lister db' = Ok [obj] ∧
    doc_fields obj !! "id" = Some (VStr (ObjectId_str (next_oid d))) ∧
    ∀ k, k ≠ "id" → doc_fields obj !! k = model_dump x !! k.
Proof.
  intros Hpost Hget Hx Hempty Hblog Hann.
  exists (create_document (_collection_name m) x (Some d)).2,
         (Doc None (<["id" := VStr (ObjectId_str (next_oid d))]> (model_dump x))).
  assert (Hfields :
    doc_fields (Doc None (<["id" := VStr (ObjectId_str (next_oid d))]> (model_dump x))) !! "id"
      = Some (VStr (ObjectId_str (next_oid d))) ∧
    ∀ k, k ≠ "id" →
      doc_fields (Doc None (<["id" := VStr (ObjectId_str (next_oid d))]> (model_dump x))) !! k
      = model_dump x !! k).
  { cbn [doc_fields]. split; [apply lookup_insert_eq|].
    intros k Hk. by apply lookup_insert_ne. }
  destruct Hfields as [Hid Hother].
  destruct m; try discriminate Hpost;
    injection Hpost as <-; injection Hget as <-;
    (split; [by apply post_creates|]); (split; [|done]).
  - apply (read_after_create _ _ _ _ _ _ compile_filter_empty); done.
  - apply (read_after_create _ _ _ _ _ _ compile_filter_empty); done.
  - apply (read_after_create _ _ _ _ _ _ compile_filter_empty); done.
  - apply (read_after_create _ _ _ _ _ _ compile_filter_empty); done.
  - unfold list_blogs, list_blogs_filt, set_if, set_if_not_none. cbn [truthy].
    rewrite insert_empty.
    apply (read_after_create _ _ _ _ _ _
             (compile_filter_singleton _ _ _ (eq_refl : compile (CEqBool true) = Some _)));
      [done | done |].
    cbn [doc_fields]. by rewrite (Hblog eq_refl).
  - apply (read_after_create _ _ _ _ _ _ compile_filter_empty); done.
  - unfold list_announcements, list_announcements_filt, set_if. cbn [truthy String.eqb Ascii.eqb].
    cbn. rewrite insert_empty.
    apply (read_after_create _ _ _ _ _ _
             (compile_filter_singleton _ _ _ (eq_refl : compile (CEqStr "public") = Some _)));
      [done | done |].
    cbn [doc_fields]. by rewrite (Hann eq_refl).
  - apply (read_after_create _ _ _ _ _ _ compile_filter_empty); done.
  - apply (read_after_create _ _ _ _ _ _ compile_filter_empty); done.
Qed.

Lemma C1_create_then_list_witness :
  ∃ db' obj,
    post BlogPost 0 (<["published" := VBool true]> draft_post) (Some (Database ∅ 7%N))
    = Some (Ok (Doc None {["id" := VStr (ObjectId_str 7%N)]}), db') ∧
    list_blogs None (Some true) 50 db' = Ok [obj] ∧
    doc_fields obj !! "id" = Some (VStr (ObjectId_str 7%N)) ∧
    ∀ k, k ≠ "id" →
      doc_fields obj !! k
      = ({[ "title" := VStr "Season 2"; "content" := VStr "Soon.";
            "author" := VStr "Notch"; "tags" := VList [];
            "image_url" := VNull; "published" := VBool true ]} : dict) !! k.
Proof.
  refine (C1_create_then_list BlogPost 0 (<["published" := VBool true]> draft_post)
            (Instance BlogPost
               {[ "title" := VStr "Season 2"; "content" := VStr "Soon.";
                  "author" := VStr "Notch"; "tags" := VList [];
                  "image_url" := VNull; "published" := VBool true ]})
            (Database ∅ 7%N) create_blog (list_blogs None (Some true) 50)
            _ _ _ _ _ _).
  - reflexivity.
  - reflexivity.
  - vm_compute. reflexivity.
  - intros name. reflexivity.
  - intros _. vm_compute. reflexivity.
  - discriminate.
Defined.

(** C1 as stated fails: a valid BlogPost that is not published, and a valid
    Announcement for staff, are created and then missing from the list read
    with no query parameters; PlayerStat has no create route, StatSummary
    has neither. *)
Lemma C1_counterexample :
  (construct BlogPost 0 draft_post
   = Ok (Instance BlogPost
           {[ "title" := VStr "Season 2"; "content" := VStr "Soon.";
              "author" := VStr "Notch"; "tags" := VList [];
              "image_url" := VNull; "published" := VBool false ]}) ∧
   post BlogPost 0 draft_post empty_store
   = Some (Ok (Doc None {["id" := VStr "000000000000000000000000"]}),
           posted BlogPost draft_post 1) ∧
   get_route_defaults BlogPost = Some (list_blogs None (Some true) 50) ∧
   list_blogs None (Some true) 50 (posted BlogPost draft_post 1) = Ok []) ∧
  (post Announcement 0 staff_notice empty_store
   = Some (Ok (Doc None {["id" := VStr "000000000000000000000000"]}),
           posted Announcement staff_notice 1) ∧
   get_route_defaults Announcement = Some (list_announcements (Some "public") 50) ∧
   list_announcements (Some "public") 50 (posted Announcement staff_notice 1) = Ok []) ∧
  post_route PlayerStat = None ∧
  post_route StatSummary = None ∧
  get_route_defaults StatSummary = None.
Proof. repeat apply conj; reflexivity. Qed.

End CreateThenList.

(* ===================================================================== *)
(** * Searching by pattern and by membership *)
(* ===================================================================== *)

Section Lookup.
Import Schemas Store Router Samples MoreSamples.

Lemma not_empty_eqb (s : string) : s ≠ EmptyString → String.eqb s "" = false.
Proof. intros H. by apply String.eqb_neq. Qed.

(** A plain pattern is searched as it is written. *)
Lemma re_search_plain (q : string) :
  Text.plain q = true →
  Text.re_search q "i" = Some (Text.search_from true (Text.lits q) true).
Proof.
  intros Hq. unfold Text.re_search.
  pose proof (re_parse_plain_app q EmptyString Hq) as H.
  rewrite append_empty_r in H. cbn in H. rewrite app_nil_r in H.
  rewrite H. reflexivity.
Qed.

(** A plain text between [^] and [$] is searched anchored at both ends. *)
Lemma re_search_anchored (u : string) :
  Text.plain u = true →
  Text.re_search ("^" +:+ u +:+ "$") "i"
  = Some (Text.search_from true (Text.ABol :: Text.lits u ++ [Text.AEol]) true).
Proof.
  intros Hu. unfold Text.re_search.
  change ("^" +:+ u +:+ "$") with (String "^" (u +:+ "$")).
  cbn [Text.re_parse Ascii.eqb Bool.eqb]. cbn.
  rewrite (re_parse_plain_app u "$" Hu). reflexivity.
Qed.

Lemma elem_of_take_1 {A} (n : nat) (l : list A) (x : A) :
  x ∈ take n l → x ∈ l.
Proof.
  revert n. induction l as [|a l IH]; intros [|n] H; simpl in H;
    try by apply elem_of_nil in H.
  apply elem_of_cons in H as [->|H]; [by left | right; by eapply IH].
Qed.

(** The documents that a request with a condition on one field selects. *)
Lemma matching_one (req : list_request) (d : database) (k : string)
    (c : condition) (t : option value → bool) :
  request_filter req = {[k := c]} →
  compile c = Some t →
  matching req d
  = Some (List.filter (λ x, t (doc_fields x !! k))
            (collection d (_collection_name (request_model req)))).
Proof.
  intros Hf Hc. unfold matching.
  rewrite Hf, (compile_filter_singleton _ _ _ Hc). cbn. f_equal.
  apply filter_ext. intros x. apply andb_true_r.
Qed.

(** A read with a condition on one field returns a stored document only
    when that field passes the condition, whatever the limit. *)
Lemma returned_one_only (name k : string) (c : condition)
    (t : option value → bool) (limit : Z) (d : database) (doc : document) :
  compile c = Some t → k ≠ "id" →
  doc ∈ collection d name →
  returned (_serialize doc)
    (serialized (get_documents name {[k := c]} limit (Some d))) →
  t (doc_fields doc !! k) = true.
Proof.
  intros Hc Hk Hin (out & Hout & Hx).
  rewrite (get_documents_one _ _ _ _ _ _ Hc) in Hout. cbn in Hout.
  injection Hout as <-. apply (returned_iff k t _ doc Hk Hin).
  rewrite list_elem_of_fmap in Hx. rewrite list_elem_of_fmap.
  destruct Hx as (y & Hy & Hin'). exists y. split; [done|].
  by eapply elem_of_take_1.
Qed.

(** When the documents that pass the condition fit in the limit, a stored
    document is returned by a read with a condition on one field exactly
    when that field passes the condition. *)
Lemma returned_one (name k : string) (c : condition) (t : option value → bool)
    (limit : Z) (d : database) (doc : document) :
  compile c = Some t → k ≠ "id" →
  doc ∈ collection d name →
  (length (List.filter (λ x, t (doc_fields x !! k)) (collection d name))
   ≤ Z.to_nat limit)%nat →
  returned (_serialize doc)
    (serialized (get_documents name {[k := c]} limit (Some d)))
  ↔ t (doc_fields doc !! k) = true.
Proof.
  intros Hc Hk Hin Hlen. rewrite (get_documents_one _ _ _ _ _ _ Hc).
  rewrite take_ge by done.
  rewrite <- (returned_iff k t _ doc Hk Hin). unfold returned. cbn. split.
  - by intros (out & [= <-] & H).
  - intros H. eauto.
Qed.

(** C2 (amended). For every stored Item with a string name and every
    non-empty query q without pattern metacharacters: the filter of the
    items list operation selects the item exactly when q is a
    case-insensitive substring of its name; with a positive limit the
    operation answers with the first [limit] of the selected items, in
    insertion order; the item is returned only if q is a case-insensitive
    substring of its name; and when the filter selects at most [limit]
    stored items, the item is returned if and only if q is a
    case-insensitive substring of its name. *)
Theorem C2_items_search (d : database) (q : string) (limit : Z)
    (doc : document) (name : string) :
  q ≠ "" →
  Text.plain q = true →
  doc ∈ collection d (_collection_name Item) →
  doc_fields doc !! "name" = Some (VStr name) →
  ∃ found,
    matching (GetItems (Some q)) d = Some found ∧
    (doc ∈ found ↔ Text.ci_substring q name) ∧
    ((0 < limit)%Z →
     list_items (Some q) limit (Some d)
     = Ok (_serialize <$> take (Z.to_nat limit) found)) ∧
    (returned (_serialize doc) (list_items (Some q) limit (Some d)) →
     Text.ci_substring q name) ∧
    ((length found ≤ Z.to_nat limit)%nat →
     returned (_serialize doc) (list_items (Some q) limit (Some d))
     ↔ Text.ci_substring q name).
Proof.
  intros Hq Hplain Hin Hname.
  set (t := str_test (Text.search_from true (Text.lits q) true)).
  assert (Hc : compile (CRegex q "i") = Some t).
  { cbn [compile]. by rewrite (re_search_plain q Hplain). }
  assert (Hf : list_items_filt (Some q) = {["name" := CRegex q "i"]}).
  { unfold list_items_filt, set_if, truthy.
    by rewrite (not_empty_eqb q Hq), insert_empty. }
  assert (Ht : t (doc_fields doc !! "name") = true ↔ Text.ci_substring q name).
  { rewrite Hname. apply search_from_lits. }
  eexists. split; [exact (matching_one (GetItems (Some q)) d _ _ _ Hf Hc)|].
  cbn [request_model]. unfold list_items. cbv zeta. rewrite Hf.
  split; [|split; [|split]].
  - rewrite elem_of_filter, <- Ht. tauto.
  - intros _. by rewrite (get_documents_one _ _ _ _ _ _ Hc).
  - intros Hret. apply Ht. by eapply returned_one_only.
  - intros Hlen. by rewrite (returned_one _ _ _ _ _ _ _ Hc).
Qed.

Lemma C2_items_search_witness :
  returned (_serialize (stored shop "item" 2))
    (list_items (Some "sword") 1 (Some (database_of shop)))
  ↔ Text.ci_substring "sword" "Diamond Sword".
Proof.
  destruct (C2_items_search (database_of shop) "sword" 1
              (stored shop "item" 2) "Diamond Sword")
    as (found & Hfound & _ & _ & _ & H).
  - discriminate.
  - reflexivity.
  - apply list_elem_of_lookup. exists 2%nat. reflexivity.
  - reflexivity.
  - apply H.
    replace found
      with (default [] (matching (GetItems (Some "sword")) (database_of shop)))
      by (by rewrite Hfound).
    vm_compute. lia.
Defined.

(** An object whose identifier no object of the response carries is not in
    the response. *)
Lemma id_absent_not_returned (x : document) (r : outcome (list document)) :
  id_absent x r = true → ¬ returned x r.
Proof.
  intros Habs (out & -> & Hin). cbn in Habs.
  rewrite forallb_forall in Habs. apply list_elem_of_In in Hin.
  specialize (Habs x Hin). by rewrite String.eqb_refl in Habs.
Qed.

(** Whether [q] is a substring up to letter case can be computed. *)
Lemma ci_substring_compute (q s : string) :
  Text.ci_substring q s ↔ Text.search_from true (Text.lits q) true s = true.
Proof. symmetry. apply search_from_lits. Qed.

(** C2 as stated fails.  The query "." is not a substring of "Diamond
    Sword", yet the item is returned: the query is used as a pattern.  And
    with 101 items named "Diamond Sword" stored, the last one is not
    returned for the query "sword" under the default limit of 100. *)
Lemma C2_counterexample :
  (str_field "name" (stored (posted Item sword 1) "item" 0) = Some "Diamond Sword" ∧
   returned (_serialize (stored (posted Item sword 1) "item" 0))
     (list_items (Some ".") 100 (posted Item sword 1)) ∧
   ¬ Text.ci_substring "." "Diamond Sword") ∧
  (str_field "name" (stored (posted Item sword 101) "item" 100) = Some "Diamond Sword" ∧
   ¬ returned (_serialize (stored (posted Item sword 101) "item" 100))
       (list_items (Some "sword") 100 (posted Item sword 101)) ∧
   Text.ci_substring "sword" "Diamond Sword").
Proof.
  repeat apply conj.
  - reflexivity.
  - eexists. split; [reflexivity | apply list_elem_of_here].
  - rewrite ci_substring_compute. vm_compute. discriminate.
  - reflexivity.
  - apply id_absent_not_returned. vm_compute. reflexivity.
  - rewrite ci_substring_compute. vm_compute. reflexivity.
Qed.

(** C3 (amended). For every stored PlayerStat whose user name is a string
    that does not end with a line feed, and every non-empty query u
    without pattern metacharacters: the filter of the player stats list
    operation selects the document exactly when its user name equals u up
    to letter case; with a positive limit the operation answers with the
    first [limit] of the selected documents, in insertion order; the
    document is returned only if its user name equals u up to letter case;
    and when the filter selects at most [limit] stored documents, the
    document is returned if and only if its user name equals u up to
    letter case. *)
Theorem C3_player_lookup (d : database) (u : string) (limit : Z)
    (doc : document) (name : string) :
  u ≠ "" →
  Text.plain u = true →
  doc ∈ collection d (_collection_name PlayerStat) →
  doc_fields doc !! "username" = Some (VStr name) →
  Text.ends_with_newline name = false →
  ∃ found,
    matching (GetPlayerStats (Some u)) d = Some found ∧
    (doc ∈ found ↔ Text.ci_equal name u) ∧
    ((0 < limit)%Z →
     get_player_stats (Some u) limit (Some d)
     = Ok (_serialize <$> take (Z.to_nat limit) found)) ∧
    (returned (_serialize doc) (get_player_stats (Some u) limit (Some d)) →
     Text.ci_equal name u) ∧
    ((length found ≤ Z.to_nat limit)%nat →
     returned (_serialize doc) (get_player_stats (Some u) limit (Some d))
     ↔ Text.ci_equal name u).
Proof.
  intros Hu Hplain Hin Hname Hnl.
  set (t := str_test (Text.search_from true
                        (Text.ABol :: Text.lits u ++ [Text.AEol]) true)).
  assert (Hc : compile (CRegex ("^" +:+ u +:+ "$") "i") = Some t).
  { cbn [compile]. by rewrite (re_search_anchored u Hplain). }
  assert (Hf : get_player_stats_filt (Some u)
               = {["username" := CRegex ("^" +:+ u +:+ "$") "i"]}).
  { unfold get_player_stats_filt, set_if, truthy.
    by rewrite (not_empty_eqb u Hu), insert_empty. }
  assert (Ht : t (doc_fields doc !! "username") = true ↔ Text.ci_equal name u).
  { rewrite Hname. by apply search_anchored. }
  eexists. split; [exact (matching_one (GetPlayerStats (Some u)) d _ _ _ Hf Hc)|].
  cbn [request_model]. unfold get_player_stats. cbv zeta. rewrite Hf.
  split; [|split; [|split]].
  - rewrite elem_of_filter, <- Ht. tauto.
  - intros _. by rewrite (get_documents_one _ _ _ _ _ _ Hc).
  - intros Hret. apply Ht. by eapply returned_one_only.
  - intros Hlen. by rewrite (returned_one _ _ _ _ _ _ _ Hc).
Qed.

Lemma C3_player_lookup_witness :
  returned (_serialize (player_stat 1%N "Notch"))
    (get_player_stats (Some "notch") 2 (Some (database_of (players three_players))))
  ↔ Text.ci_equal "Notch" "notch".
Proof.
  destruct (C3_player_lookup (database_of (players three_players)) "notch" 2
              (player_stat 1%N "Notch") "Notch")
    as (found & Hfound & _ & _ & _ & H).
  - discriminate.
  - reflexivity.
  - apply list_elem_of_lookup. exists 1%nat. reflexivity.
  - reflexivity.
  - reflexivity.
  - apply H.
    replace found
      with (default [] (matching (GetPlayerStats (Some "notch"))
                          (database_of (players three_players))))
      by (by rewrite Hfound).
    vm_compute. lia.
Defined.

(** C3 as stated fails.  The query "N.tch" differs from "Notch" by more
    than letter case, yet the document is returned: the query is used as a
    pattern.  A stored name that ends with a line feed is returned for the
    query without it.  And with 101 documents of user "Notch" stored, the
    last one is not returned for "notch" under the default limit of 100. *)
Lemma C3_counterexample :
  (returned (_serialize (player_stat 0%N "Notch"))
     (get_player_stats (Some "N.tch") 100 (players [player_stat 0%N "Notch"])) ∧
   ¬ Text.ci_equal "Notch" "N.tch") ∧
  (returned (_serialize (player_stat 0%N ("Notch" +:+ String Text.newline "")))
     (get_player_stats (Some "notch") 100
        (players [player_stat 0%N ("Notch" +:+ String Text.newline "")])) ∧
   ¬ Text.ci_equal ("Notch" +:+ String Text.newline "") "notch") ∧
  (¬ returned (_serialize (player_stat 100%N "Notch"))
       (get_player_stats (Some "notch") 100 (players (same_players "Notch" 101))) ∧
   player_stat 100%N "Notch" ∈ same_players "Notch" 101 ∧
   Text.ci_equal "Notch" "notch").
Proof.
  repeat apply conj.
  - eexists. split; [reflexivity | apply list_elem_of_here].
  - vm_compute. discriminate.
  - eexists. split; [reflexivity | apply list_elem_of_here].
  - vm_compute. discriminate.
  - apply id_absent_not_returned. vm_compute. reflexivity.
  - apply list_elem_of_lookup. exists 100%nat. reflexivity.
  - reflexivity.
Qed.

Lemma existsb_pointwise {A} (f g : A → bool) (l : list A) :
  (∀ x, f x = g x) → existsb f l = existsb g l.
Proof. intros H. induction l as [|a l IH]; simpl; [done | by rewrite H, IH]. Qed.

(** On a stored UserAccount, the condition built for [role] is membership in
    its [roles] list. *)
Lemma roles_test (r : string) (doc : document) :
  is_Some (roles_of doc) →
  str_test (λ s, existsb (String.eqb s) [r]) (doc_fields doc !! "roles")
  = has_role r doc.
Proof.
  unfold has_role, roles_of. intros [l Hl].
  destruct (doc_fields doc !! "roles") as [[| | | | | | |l']|]; try discriminate Hl.
  cbn [str_test]. apply existsb_pointwise. intros [| | | |s| | |]; try reflexivity.
  cbn [existsb]. rewrite orb_false_r. apply String.eqb_sym.
Qed.

Lemma has_role_elem (r : string) (doc : document) (l : list value) :
  roles_of doc = Some l → has_role r doc = true ↔ VStr r ∈ l.
Proof.
  intros Hl. unfold has_role. rewrite Hl, existsb_exists. split.
  - intros (v & Hin & Hv). destruct v as [| | | |s| | |]; try discriminate Hv.
    apply String.eqb_eq in Hv as ->. by apply list_elem_of_In.
  - intros Hin. exists (VStr r). split; [by apply list_elem_of_In|].
    apply String.eqb_refl.
Qed.

(** C7 (amended). For every non-empty role r, when every stored
    UserAccount has a roles list: with a positive limit the users list
    operation returns the first [limit] of the stored documents whose
    roles list contains r, in insertion order; when at most [limit] stored
    documents have r among their roles, it returns exactly those
    documents, so a stored document is returned if and only if its roles
    list contains r; and whatever the limit, filtering by "staff" leaves
    out an account whose roles list is only ["player"]. *)
Theorem C7_users_by_role (d : database) (r : string) (limit : Z) :
  r ≠ "" →
  Forall (λ x, is_Some (roles_of x)) (collection d (_collection_name UserAccount)) →
  ((0 < limit)%Z →
   list_users (Some r) limit (Some d)
   = Ok (_serialize <$> take (Z.to_nat limit)
           (List.filter (has_role r) (collection d (_collection_name UserAccount))))) ∧
  ((length (List.filter (has_role r) (collection d (_collection_name UserAccount)))
    ≤ Z.to_nat limit)%nat →
   list_users (Some r) limit (Some d)
   = Ok (_serialize <$> List.filter (has_role r)
                          (collection d (_collection_name UserAccount))) ∧
   (∀ doc l,
      doc ∈ collection d (_collection_name UserAccount) →
      roles_of doc = Some l →
      returned (_serialize doc) (list_users (Some r) limit (Some d)) ↔ VStr r ∈ l)) ∧
  (∀ doc,
     doc ∈ collection d (_collection_name UserAccount) →
     roles_of doc = Some [VStr "player"] →
     ¬ returned (_serialize doc) (list_users (Some "staff") limit (Some d))).
Proof.
  intros Hr Hshape.
  assert (Hc : ∀ r', compile (CInStr [r'])
                     = Some (str_test (λ s, existsb (String.eqb s) [r']))) by done.
  assert (Hlist : ∀ r', r' ≠ "" →
            list_users (Some r') limit (Some d)
            = serialized (get_documents (_collection_name UserAccount)
                            {["roles" := CInStr [r']]} limit (Some d))).
  { intros r' Hr'. unfold list_users, list_users_filt, set_if, truthy.
    by rewrite (not_empty_eqb r' Hr'), insert_empty. }
  assert (Hsel : ∀ r',
            List.filter (λ x, str_test (λ s, existsb (String.eqb s) [r'])
                                (doc_fields x !! "roles"))
              (collection d (_collection_name UserAccount))
            = List.filter (has_role r') (collection d (_collection_name UserAccount))).
  { intros r'. apply filter_ext_in. intros x Hx. apply roles_test.
    rewrite Forall_forall in Hshape. apply Hshape.
    by apply list_elem_of_In. }
  assert (Hall : list_users (Some r) limit (Some d)
                 = Ok (_serialize <$> take (Z.to_nat limit)
                         (List.filter (has_role r)
                            (collection d (_collection_name UserAccount))))).
  { by rewrite (Hlist r Hr), (get_documents_one _ _ _ _ _ _ (Hc r)), Hsel. }
  split; [intros _; exact Hall|]. split; [intros Hlen; split|].
  - rewrite Hall. by rewrite take_ge.
  - intros doc l Hin Hl. rewrite (Hlist r Hr).
    rewrite (returned_one _ _ _ _ _ _ _ (Hc r)); [|done|done|by rewrite Hsel].
    rewrite roles_test by (by rewrite Hl). by apply has_role_elem.
  - intros doc Hin Hl Hret. rewrite (Hlist "staff") in Hret by discriminate.
    apply (returned_one_only _ _ _ _ _ _ _ (Hc "staff")) in Hret; [|done..].
    rewrite roles_test in Hret by (by rewrite Hl).
    apply (has_role_elem _ _ _ Hl) in Hret.
    apply list_elem_of_singleton in Hret. discriminate.
Qed.

Lemma C7_users_by_role_witness :
  list_users (Some "staff") 1 (Some (database_of two_users))
  = Ok (_serialize <$> List.filter (has_role "staff")
                         (collection (database_of two_users) (_collection_name UserAccount))) ∧
  (∀ doc l,
     doc ∈ collection (database_of two_users) (_collection_name UserAccount) →
     roles_of doc = Some l →
     returned (_serialize doc) (list_users (Some "staff") 1 (Some (database_of two_users)))
     ↔ VStr "staff" ∈ l).
Proof.
  apply (C7_users_by_role (database_of two_users) "staff" 1).
  - discriminate.
  - repeat apply Forall_cons_2; [by eexists | by eexists | apply Forall_nil_2].
  - vm_compute. lia.
Defined.

(** C7 as stated fails: with 101 staff accounts stored, the last one has
    "staff" among its roles and is not returned for role "staff" under the
    default limit of 100. *)
Lemma C7_counterexample :
  has_role "staff" (stored (posted UserAccount staff_user 101) "useraccount" 100) = true ∧
  ¬ returned (_serialize (stored (posted UserAccount staff_user 101) "useraccount" 100))
      (list_users (Some "staff") 100 (posted UserAccount staff_user 101)).
Proof.
  split.
  - vm_compute. reflexivity.
  - apply id_absent_not_returned. vm_compute. reflexivity.
Qed.

End Lookup.

(* ===================================================================== *)
(** * Further facts: collection names and the serializer *)
(* ===================================================================== *)

Local Set Warnings "-clear-no-such-hyp".

Section Serializer.
Import Schemas Store Router Samples.

Lemma collection_name_inj (m1 m2 : model) :
  _collection_name m1 = _collection_name m2 → m1 = m2.
Proof. destruct m1, m2; first [reflexivity | discriminate]. Qed.

(** X1. Different models are kept in different collections: two models
    have the same collection name only if they are the same model. *)
Theorem collection_names_distinct (m1 m2 : model) :
  _collection_name m1 = _collection_name m2 → m1 = m2.
Proof.
  intros H. destruct (decide (m1 = m2)) as [|Hne]; [done|].
  by apply collection_name_inj in H.
Qed.

Lemma collection_names_distinct_witness :
  _collection_name StaffMeeting = _collection_name StaffMeeting
  ∧ StaffMeeting = StaffMeeting.
Proof.
  split; [reflexivity|].
  apply (collection_names_distinct StaffMeeting StaffMeeting). reflexivity.
Defined.

(** The result of serializing never has an ["_id"] entry. *)
Lemma serialize_no_id (doc : document) : doc_id (_serialize doc) = None.
Proof.
  unfold _serialize, doc_is_empty.
  destruct (doc_id doc) as [oid|] eqn:E; [done|].
  by destruct (size (doc_fields doc) =? 0)%nat.
Qed.

(** X2. Serializing is idempotent: a serialized document is left as it is
    by a second pass. *)
Theorem serialize_idempotent (doc : document) :
  _serialize (_serialize doc) = _serialize doc.
Proof.
  unfold _serialize at 1. rewrite serialize_no_id.
  by destruct (doc_is_empty (_serialize doc)).
Qed.

(** X3. Whatever a list operation or the stats summary returns, no object
    of the response has an ["_id"] entry. *)
Theorem responses_have_no_raw_id (db : connection) :
  (∀ req limit out,
     run_list req limit db = Ok out → Forall (λ o, doc_id o = None) out) ∧
  (∀ now obj, get_stats_summary now db = Ok obj → doc_id obj = None).
Proof.
  split.
  - intros req limit out. rewrite run_list_unfold. unfold serialized.
    destruct (get_documents _ _ _ _) as [docs|e]; [|discriminate].
    intros [= <-]. apply Forall_fmap, Forall_true. intros x. apply serialize_no_id.
  - intros now obj. unfold get_stats_summary.
    destruct (get_documents _ _ _ _) as [[|first rest]|e]; cbn; [| |discriminate].
    + rewrite summary_of_defaults. by intros [= <-].
    + intros [= <-]. apply serialize_no_id.
Qed.

Lemma responses_have_no_raw_id_witness :
  Forall (λ o, doc_id o = None)
    (_serialize <$> take 2 (collection (database_of (posted Item sword 3)) "item")).
Proof.
  apply (proj1 (responses_have_no_raw_id (posted Item sword 3)) (GetItems None) 2%Z).
  reflexivity.
Defined.

End Serializer.

(* ===================================================================== *)
(** * Further facts: filters are conjunctions *)
(* ===================================================================== *)

Section Filters.
Import Schemas Store Router Samples MoreSamples.

Lemma tests_forall (l : list (string * condition))
    (tests : list (string * (option value → bool))) (d : document) :
  Forall2 (λ kc kt, (λ t, (kc.1, t)) <$> compile kc.2 = Some kt) l tests →
  forallb (λ kt, kt.2 (doc_fields d !! kt.1)) tests = true
  ↔ Forall (λ kc, ∃ t, compile kc.2 = Some t ∧ t (doc_fields d !! kc.1) = true) l.
Proof.
  induction 1 as [|[k c] [k' t] l tests H _ IH]; cbn [forallb].
  - split; [constructor | done].
  - cbn in H. destruct (compile c) as [t0|] eqn:E; [|discriminate].
    injection H as <- <-. rewrite andb_true_iff, IH, Forall_cons. cbn.
    rewrite E. split.
    + intros [Ht Hl]. eauto.
    + intros [(t1 & [= <-] & Ht) Hl]. eauto.
Qed.

(** A compiled filter accepts a document exactly when every condition of
    the filter holds of the field it is attached to. *)
Lemma compile_filter_spec (filt : gmap string condition) (test : document → bool) :
  compile_filter filt = Some test →
  ∀ d, test d = true
       ↔ map_Forall (λ k c, ∃ t, compile c = Some t ∧ t (doc_fields d !! k) = true) filt.
Proof.
  unfold compile_filter. intros H d.
  destruct (mapM _ (map_to_list filt)) as [tests|] eqn:E; [|discriminate].
  cbn in H. injection H as <-. apply mapM_Some_1 in E.
  rewrite (tests_forall _ _ d E), map_Forall_to_list.
  apply Forall_proper; [|done]. by intros [k c].
Qed.

Lemma compile_filter_total (filt : gmap string condition) :
  map_Forall (λ _ c, is_Some (compile c)) filt → is_Some (compile_filter filt).
Proof.
  intros H. unfold compile_filter.
  assert (Hm : is_Some (mapM (λ kc : string * condition, (λ t, (kc.1, t)) <$> compile kc.2)
                          (map_to_list filt))).
  { apply mapM_is_Some. rewrite map_Forall_to_list in H.
    eapply Forall_impl; [exact H|]. intros [k c] [t Ht]. cbn in *. rewrite Ht. by eexists. }
  destruct Hm as [tests ->]. by eexists.
Qed.

(** With a filter that does not look at ["id"], and a collection within the
    limit, a stored document is returned exactly when it satisfies every
    condition of the filter. *)
Lemma returned_filter (name : string) (filt : gmap string condition)
    (limit : Z) (d : database) (doc : document) :
  filt !! "id" = None →
  map_Forall (λ _ c, is_Some (compile c)) filt →
  doc ∈ collection d name →
  (length (collection d name) ≤ Z.to_nat limit)%nat →
  returned (_serialize doc) (serialized (get_documents name filt limit (Some d)))
  ↔ map_Forall (λ k c, ∃ t, compile c = Some t ∧ t (doc_fields doc !! k) = true) filt.
Proof.
  intros Hid Hc Hin Hlen.
  destruct (compile_filter_total filt Hc) as [test Htest].
  pose proof (compile_filter_spec filt test Htest) as Hspec.
  assert (Hinv : ∀ x y, _serialize x = _serialize y → test x = true → test y = true).
  { intros x y Hxy. rewrite !Hspec. intros H k c Hk.
    destruct (H k c Hk) as (t & Ht & Hv). exists t. split; [done|].
    assert (k ≠ "id") as Hne by (intros ->; congruence).
    by rewrite <- (serialize_lookup y k Hne), <- Hxy, serialize_lookup. }
  rewrite <- Hspec. unfold get_documents. rewrite Htest. cbn.
  rewrite take_ge by (etransitivity; [apply length_filter_le | done]).
  unfold returned. split.
  - intros (out & [= <-] & Hout). apply list_elem_of_fmap in Hout as (y & Hy & Hyin).
    apply elem_of_filter in Hyin as [_ Hyt]. by apply (Hinv y doc).
  - intros Ht. eexists. split; [reflexivity|].
    apply list_elem_of_fmap_2. by apply elem_of_filter.
Qed.

Lemma map_Forall_set_if (P : string → condition → Prop) (key : string)
    (mk : string → condition) (p : option string) (filt : gmap string condition) :
  filt !! key = None →
  map_Forall P (set_if key mk p filt)
  ↔ (∀ s, truthy p = Some s → P key (mk s)) ∧ map_Forall P filt.
Proof.
  intros Hk. unfold set_if. destruct (truthy p) as [s|].
  - rewrite map_Forall_insert by done. split.
    + intros [H1 H2]. split; [by intros ? [= <-] | done].
    + intros [H1 H2]. split; [by apply H1 | done].
  - split; [intros H; split; [discriminate | done] | by intros [_ H]].
Qed.

Lemma map_Forall_set_if_not_none (P : string → condition → Prop) (key : string)
    (p : option bool) (filt : gmap string condition) :
  filt !! key = None →
  map_Forall P (set_if_not_none key p filt)
  ↔ (∀ b, p = Some b → P key (CEqBool b)) ∧ map_Forall P filt.
Proof.
  intros Hk. unfold set_if_not_none. destruct p as [b|].
  - rewrite map_Forall_insert by done. split.
    + intros [H1 H2]. split; [by intros ? [= <-] | done].
    + intros [H1 H2]. split; [by apply H1 | done].
  - split; [intros H; split; [discriminate | done] | by intros [_ H]].
Qed.

Lemma lookup_set_if_ne (key k : string) (mk : string → condition)
    (p : option string) (filt : gmap string condition) :
  k ≠ key → set_if key mk p filt !! k = filt !! k.
Proof.
  intros Hk. unfold set_if. destruct (truthy p); [|done]. by rewrite lookup_insert_ne.
Qed.

Lemma lookup_set_if_not_none_ne (key k : string) (p : option bool)
    (filt : gmap string condition) :
  k ≠ key → set_if_not_none key p filt !! k = filt !! k.
Proof.
  intros Hk. unfold set_if_not_none. destruct p; [|done]. by rewrite lookup_insert_ne.
Qed.

(** What each condition asks of a field of the expected kind. *)
Lemma holds_eq_str (doc : document) (k s r : string) :
  doc_fields doc !! k = Some (VStr r) →
  (∃ t, compile (CEqStr s) = Some t ∧ t (doc_fields doc !! k) = true) ↔ s = r.
Proof.
  intros Hk. rewrite Hk. cbn. split.
  - intros (t & [= <-] & Ht). by apply String.eqb_eq.
  - intros ->. eexists. split; [done|]. apply String.eqb_refl.
Qed.

Lemma holds_eq_bool (doc : document) (k : string) (b a : bool) :
  doc_fields doc !! k = Some (VBool a) →
  (∃ t, compile (CEqBool b) = Some t ∧ t (doc_fields doc !! k) = true) ↔ b = a.
Proof.
  intros Hk. rewrite Hk. cbn. split.
  - intros (t & [= <-] & Ht). by apply Bool.eqb_prop.
  - intros ->. eexists. split; [done|]. apply Bool.eqb_reflx.
Qed.

Lemma holds_in_list (doc : document) (k s : string) (l : list value) :
  doc_fields doc !! k = Some (VList l) →
  (∃ t, compile (CInStr [s]) = Some t ∧ t (doc_fields doc !! k) = true) ↔ VStr s ∈ l.
Proof.
  intros Hk. rewrite Hk. cbn. split.
  - intros (t & [= <-] & Ht). cbn in Ht. apply existsb_exists in Ht as (v & Hv & Ht).
    destruct v as [| | | |s'| | |]; try discriminate Ht.
    rewrite orb_false_r in Ht. apply String.eqb_eq in Ht as ->.
    by apply list_elem_of_In.
  - intros Hin. eexists. split; [done|]. cbn. apply existsb_exists.
    exists (VStr s). split; [by apply list_elem_of_In|].
    by rewrite String.eqb_refl.
Qed.

Ltac filter_side :=
  repeat first
    [ rewrite lookup_set_if_not_none_ne by discriminate
    | rewrite lookup_set_if_ne by discriminate
    | apply lookup_empty ].

Ltac filter_compiles :=
  repeat first
    [ rewrite map_Forall_set_if_not_none by filter_side
    | rewrite map_Forall_set_if by filter_side ];
  repeat split; intros; cbn; first [apply map_Forall_empty | eauto].

(** X4. Staff filters form a conjunction: when the collection is within the
    limit, a stored staff member is returned exactly when its role equals
    the role parameter and its team the team parameter, both compared as
    written, and its active flag equals the active parameter -- each only
    if that parameter is given (a string parameter counts as given when it
    is not empty). *)
Theorem list_staff_conjunction (d : database) (role team : option string)
    (active : option bool) (limit : Z) (doc : document) (r t : string) (a : bool) :
  doc ∈ collection d (_collection_name StaffMember) →
  doc_fields doc !! "role" = Some (VStr r) →
  doc_fields doc !! "team" = Some (VStr t) →
  doc_fields doc !! "active" = Some (VBool a) →
  (length (collection d (_collection_name StaffMember)) ≤ Z.to_nat limit)%nat →
  returned (_serialize doc) (list_staff role team active limit (Some d))
  ↔ (∀ r', truthy role = Some r' → r' = r)
    ∧ (∀ t', truthy team = Some t' → t' = t)
    ∧ (∀ a', active = Some a' → a' = a).
Proof.
  intros Hin Hr Ht Ha Hlen. unfold list_staff, list_staff_filt.
  rewrite returned_filter; [|filter_side|filter_compiles|done..].
  rewrite map_Forall_set_if_not_none, !map_Forall_set_if by filter_side.
  setoid_rewrite (holds_eq_str doc "role" _ r Hr).
  setoid_rewrite (holds_eq_str doc "team" _ t Ht).
  setoid_rewrite (holds_eq_bool doc "active" _ a Ha).
  split.
  - intros (Ha' & Ht' & Hr' & _). auto.
  - intros (Hr' & Ht' & Ha'). repeat split; auto. apply map_Forall_empty.
Qed.

Lemma list_staff_conjunction_witness :
  returned (_serialize (stored (posted StaffMember moderator 1) "staffmember" 0))
    (list_staff (Some "Admin") (Some "") (Some true) 200
       (Some (database_of (posted StaffMember moderator 1))))
  ↔ (∀ r', truthy (Some "Admin") = Some r' → r' = "Admin")
    ∧ (∀ t', truthy (Some "") = Some t' → t' = "Moderation")
    ∧ (∀ a', Some true = Some a' → a' = true).
Proof.
  apply (list_staff_conjunction (database_of (posted StaffMember moderator 1))
           (Some "Admin") (Some "") (Some true) 200
           (stored (posted StaffMember moderator 1) "staffmember" 0)
           "Admin" "Moderation" true).
  - apply list_elem_of_here.
  - reflexivity.
  - reflexivity.
  - reflexivity.
  - vm_compute. lia.
Defined.

(** X5. Blog filters form a conjunction: when the collection is within the
    limit, a stored post is returned exactly when the tag parameter, if
    given and not empty, is one of its tags, and its published flag equals
    the published parameter, if that is not null. *)
Theorem list_blogs_conjunction (d : database) (tag : option string)
    (published : option bool) (limit : Z) (doc : document)
    (tags : list value) (p : bool) :
  doc ∈ collection d (_collection_name BlogPost) →
  doc_fields doc !! "tags" = Some (VList tags) →
  doc_fields doc !! "published" = Some (VBool p) →
  (length (collection d (_collection_name BlogPost)) ≤ Z.to_nat limit)%nat →
  returned (_serialize doc) (list_blogs tag published limit (Some d))
  ↔ (∀ t, truthy tag = Some t → VStr t ∈ tags)
    ∧ (∀ b, published = Some b → b = p).
Proof.
  intros Hin Ht Hp Hlen. unfold list_blogs, list_blogs_filt.
  rewrite returned_filter; [|filter_side|filter_compiles|done..].
  rewrite map_Forall_set_if_not_none, map_Forall_set_if by filter_side.
  setoid_rewrite (holds_in_list doc "tags" _ tags Ht).
  setoid_rewrite (holds_eq_bool doc "published" _ p Hp).
  split.
  - intros (Hp' & Ht' & _). auto.
  - intros (Ht' & Hp'). repeat split; auto. apply map_Forall_empty.
Qed.

Lemma list_blogs_conjunction_witness :
  returned (_serialize (stored (posted BlogPost tagged_post 1) "blogpost" 0))
    (list_blogs (Some "news") (Some true) 50
       (Some (database_of (posted BlogPost tagged_post 1))))
  ↔ (∀ t, truthy (Some "news") = Some t → VStr t ∈ [VStr "news"; VStr "season"])
    ∧ (∀ b, Some true = Some b → b = true).
Proof.
  apply (list_blogs_conjunction (database_of (posted BlogPost tagged_post 1))
           (Some "news") (Some true) 50
           (stored (posted BlogPost tagged_post 1) "blogpost" 0)
           [VStr "news"; VStr "season"] true).
  - apply list_elem_of_here.
  - reflexivity.
  - reflexivity.
  - vm_compute. lia.
Defined.

(** X6. Filters on one field compare for equality, as written: within the
    limit, an event is returned exactly when its active flag equals the
    active parameter, if given -- [false] included; an application exactly
    when its status equals the status parameter, and an announcement
    exactly when its visibility equals the visibility parameter, if that
    parameter is given and not empty. *)
Theorem single_equality_filters (d : database) (limit : Z) (doc : document) :
  (∀ active a,
     doc ∈ collection d (_collection_name Event) →
     doc_fields doc !! "active" = Some (VBool a) →
     (length (collection d (_collection_name Event)) ≤ Z.to_nat limit)%nat →
     returned (_serialize doc) (list_events active limit (Some d))
     ↔ ∀ a', active = Some a' → a' = a) ∧
  (∀ status s,
     doc ∈ collection d (_collection_name Application) →
     doc_fields doc !! "status" = Some (VStr s) →
     (length (collection d (_collection_name Application)) ≤ Z.to_nat limit)%nat →
     returned (_serialize doc) (list_applications status limit (Some d))
     ↔ ∀ s', truthy status = Some s' → s' = s) ∧
  (∀ visibility v,
     doc ∈ collection d (_collection_name Announcement) →
     doc_fields doc !! "visibility" = Some (VStr v) →
     (length (collection d (_collection_name Announcement)) ≤ Z.to_nat limit)%nat →
     returned (_serialize doc) (list_announcements visibility limit (Some d))
     ↔ ∀ v', truthy visibility = Some v' → v' = v).
Proof.
  repeat apply conj.
  - intros active a Hin Ha Hlen. unfold list_events, list_events_filt.
    rewrite returned_filter; [|filter_side|filter_compiles|done..].
    rewrite map_Forall_set_if_not_none by filter_side.
    setoid_rewrite (holds_eq_bool doc "active" _ a Ha).
    split; [by intros [H _] | intros H; split; [done | apply map_Forall_empty]].
  - intros status s Hin Hs Hlen. unfold list_applications, list_applications_filt.
    rewrite returned_filter; [|filter_side|filter_compiles|done..].
    rewrite map_Forall_set_if by filter_side.
    setoid_rewrite (holds_eq_str doc "status" _ s Hs).
    split; [by intros [H _] | intros H; split; [done | apply map_Forall_empty]].
  - intros visibility v Hin Hv Hlen. unfold list_announcements, list_announcements_filt.
    rewrite returned_filter; [|filter_side|filter_compiles|done..].
    rewrite map_Forall_set_if by filter_side.
    setoid_rewrite (holds_eq_str doc "visibility" _ v Hv).
    split; [by intros [H _] | intros H; split; [done | apply map_Forall_empty]].
Qed.

Lemma single_equality_filters_witness :
  returned (_serialize (stored (posted Event past_event 1) "event" 0))
    (list_events (Some false) 50 (Some (database_of (posted Event past_event 1))))
  ↔ ∀ a', Some false = Some a' → a' = false.
Proof.
  apply (proj1 (single_equality_filters (database_of (posted Event past_event 1)) 50
                  (stored (posted Event past_event 1) "event" 0)) (Some false) false).
  - apply list_elem_of_here.
  - reflexivity.
  - vm_compute. lia.
Defined.

End Filters.

(* ===================================================================== *)
(** * Further facts: construction of instances *)
(* ===================================================================== *)

Section Construction.
Import Schemas Store Router Samples MoreSamples Shapes.

Lemma field_names_nodup (m : model) : NoDup (field_names m).
Proof. destruct m; apply (bool_decide_unpack _); vm_compute; reflexivity. Qed.

(** A successful construction accepted every declared field. *)
Lemma construct_ok_inv (m : model) (now : Z) (payload : dict) (x : instance) :
  construct m now payload = Ok x →
  x = Instance m (accepted now payload (model_fields m))
  ∧ Forall (λ f, ∃ v, field_value now payload f = Accept v) (model_fields m).
Proof.
  unfold construct, rejected. intros H.
  destruct (List.filter _ (model_fields m)) as [|bad rest] eqn:Hr; [|discriminate].
  destruct (existsb _ (model_fields m)) eqn:Hu; [discriminate|].
  injection H as <-. split; [done|].
  apply Forall_forall. intros f Hf.
  destruct (field_value now payload f) as [v| |] eqn:E; [eauto|exfalso..].
  - assert (f ∈ @nil field) as Hin; [|by apply not_elem_of_nil in Hin].
    rewrite <- Hr. apply elem_of_filter. by rewrite E.
  - assert (existsb (λ f, is_unknown (field_value now payload f)) (model_fields m) = true)
      as Hex; [|congruence].
    apply existsb_exists. exists f. split; [by apply list_elem_of_In | by rewrite E].
Qed.

Lemma existsb_ext_in {A} (g h : A → bool) (l : list A) :
  (∀ a, a ∈ l → g a = h a) → existsb g l = existsb h l.
Proof.
  induction l as [|a l IH]; intros H; [done|]. cbn.
  rewrite (H a) by left. rewrite IH; [done|]. intros b Hb. apply H. by right.
Qed.

Lemma accepted_ext (n1 n2 : Z) (p1 p2 : dict) (fs : list field) :
  (∀ f, f ∈ fs → field_value n1 p1 f = field_value n2 p2 f) →
  accepted n1 p1 fs = accepted n2 p2 fs.
Proof.
  induction fs as [|f fs IH]; intros H; [done|]. cbn [accepted].
  rewrite (H f) by left. rewrite IH; [done|]. intros g Hg. apply H. by right.
Qed.

(** Construction depends on the clock and the payload through the values
    of the declared fields only. *)
Lemma construct_ext_values (m : model) (n1 n2 : Z) (p1 p2 : dict) :
  (∀ f, f ∈ model_fields m → field_value n1 p1 f = field_value n2 p2 f) →
  construct m n1 p1 = construct m n2 p2.
Proof.
  intros H. unfold construct, rejected.
  rewrite (filter_ext_in (λ f, is_reject (field_value n1 p1 f))
             (λ f, is_reject (field_value n2 p2 f))).
  2:{ intros f Hf. rewrite H; [done|]. by apply list_elem_of_In. }
  rewrite (existsb_ext_in (λ f, is_unknown (field_value n1 p1 f))
             (λ f, is_unknown (field_value n2 p2 f))).
  2:{ intros f Hf. by rewrite H. }
  by rewrite (accepted_ext n1 n2 p1 p2 _ H).
Qed.

Lemma construct_ext (m : model) (now : Z) (p1 p2 : dict) :
  (∀ f, f ∈ model_fields m → p1 !! f_name f = p2 !! f_name f) →
  construct m now p1 = construct m now p2.
Proof.
  intros H. apply construct_ext_values. intros f Hf.
  unfold field_value. by rewrite (H f Hf).
Qed.

(** X7. Keys of the payload that the model does not declare are ignored:
    they change neither the instance nor the validation errors. *)
Theorem undeclared_keys_ignored (m : model) (now : Z) (payload : dict)
    (k : string) (v : value) :
  k ∉ field_names m →
  construct m now (<[k := v]> payload) = construct m now payload.
Proof.
  intros Hk. apply construct_ext. intros f Hf.
  apply lookup_insert_ne. intros ->. apply Hk.
  unfold field_names. by apply list_elem_of_fmap_2.
Qed.

Lemma undeclared_keys_ignored_witness :
  construct Item 0 sword_with_extra = construct Item 0 sword.
Proof.
  apply (undeclared_keys_ignored Item 0 sword "owner" (VStr "Steve")).
  apply (bool_decide_unpack _). vm_compute. reflexivity.
Defined.

Lemma accepted_lookup (now : Z) (payload : dict) (fs : list field) (f : field) (v : value) :
  NoDup (f_name <$> fs) → f ∈ fs →
  field_value now payload f = Accept v →
  accepted now payload fs !! f_name f = Some v.
Proof.
  induction fs as [|g gs IH]; intros Hnd Hf Hv; [by apply not_elem_of_nil in Hf|].
  cbn in Hnd. apply NoDup_cons in Hnd as [Hg Hnd]. cbn [accepted].
  apply elem_of_cons in Hf as [->|Hf].
  - rewrite Hv. apply lookup_insert_eq.
  - assert (f_name g ≠ f_name f) as Hne.
    { intros Heq. apply Hg. rewrite Heq. by apply list_elem_of_fmap_2. }
    destruct (field_value now payload g);
      rewrite ?lookup_insert_ne by done; by apply IH.
Qed.

Lemma accepted_dom (now : Z) (payload : dict) (fs : list field) :
  Forall (λ f, ∃ v, field_value now payload f = Accept v) fs →
  dom (accepted now payload fs) = list_to_set (f_name <$> fs).
Proof.
  induction 1 as [|f fs [v Hv] _ IH]; cbn [accepted]; [apply dom_empty_L|].
  rewrite Hv, dom_insert_L, IH. reflexivity.
Qed.

(** X8. An instance has exactly the declared fields of its model: whatever
    the payload held, the dump of a constructed instance has one entry per
    declared field and no other. *)
Theorem instance_has_declared_fields (m : model) (now : Z) (payload : dict)
    (x : instance) :
  construct m now payload = Ok x →
  inst_model x = m ∧ dom (model_dump x) = list_to_set (field_names m).
Proof.
  intros H. apply construct_ok_inv in H as [-> Hall]. split; [done|].
  by apply accepted_dom.
Qed.

Lemma instance_has_declared_fields_witness :
  ∃ x, construct Item 0 sword_with_extra = Ok x
       ∧ dom (model_dump x)
         = {[ "name"; "price"; "category"; "description"; "image_url" ]}.
Proof.
  destruct (construct Item 0 sword_with_extra) as [x|e] eqn:E; [|by vm_compute in E].
  exists x. split; [done|].
  rewrite (proj2 (instance_has_declared_fields Item 0 sword_with_extra x E)).
  cbn. set_solver.
Defined.

(** Every declared field of a constructed instance holds the value that
    was accepted for it. *)
Lemma instance_field (m : model) (now : Z) (payload : dict) (x : instance)
    (f : field) :
  construct m now payload = Ok x →
  f ∈ model_fields m →
  ∃ v, field_value now payload f = Accept v ∧ model_dump x !! f_name f = Some v.
Proof.
  intros H Hf. apply construct_ok_inv in H as [-> Hall].
  rewrite Forall_forall in Hall. destruct (Hall f Hf) as [v Hv].
  exists v. split; [done|].
  exact (accepted_lookup now payload _ f v (field_names_nodup m) Hf Hv).
Qed.

(** X9. A field the payload omits takes its declared default: the literal
    default or the value of the default factory, the clock for [since]; a
    constructed instance never lacks a field without default. *)
Theorem omitted_fields_take_defaults (m : model) (now : Z) (payload : dict)
    (x : instance) (f : field) :
  construct m now payload = Ok x →
  f ∈ model_fields m →
  payload !! f_name f = None →
  match f_default f with
  | Required => False
  | Default v | DefaultFactory v => model_dump x !! f_name f = Some v
  | DefaultUtcNow => model_dump x !! f_name f = Some (VDatetime now)
  end.
Proof.
  intros H Hf Hp. destruct (instance_field m now payload x f H Hf) as (v & Hv & Hl).
  unfold field_value in Hv. rewrite Hp in Hv.
  destruct (f_default f); [discriminate|..]; injection Hv as <-; done.
Qed.

Lemma omitted_fields_take_defaults_witness :
  ∃ x, construct UserAccount 0 player_user = Ok x
       ∧ model_dump x !! "roles" = Some (VList [VStr "player"]).
Proof.
  destruct (construct UserAccount 0 player_user) as [x|e] eqn:E; [|by vm_compute in E].
  exists x. split; [done|].
  apply (omitted_fields_take_defaults UserAccount 0 player_user x
           (fld "roles" TListStr (DefaultFactory (VList [VStr "player"]))) E).
  - set_solver.
  - reflexivity.
Defined.

Lemma has_type_optional (t : ftype) (v : value) :
  has_type t v = true → has_type (TOptional t) v = true.
Proof. by destruct v. Qed.

Lemma coerce_has_type (t : ftype) (v v' : value) :
  coerce t v = Accept v' → has_type t v' = true.
Proof.
  revert v v'. induction t as [| | | | | | |t IH]; intros v v' H.
  1-7: destruct v; cbn in H; repeat (case_match; try discriminate);
       simplify_eq; cbn; try done; by apply bool_decide_eq_true_2.
  destruct v; cbn in H; try (apply has_type_optional; by eapply IH).
  by injection H as <-.
Qed.

Lemma check_ge_accept (b : option Z) (v v' : value) :
  check_ge b v = Accept v' → v' = v ∧ respects_ge b v.
Proof.
  unfold respects_ge. intros H.
  assert (v' = v) as ->; [|done].
  destruct b as [b|], v; cbn in H; try (by injection H);
    match type of H with (if ?c then _ else _) = _ => destruct c end;
    by (discriminate || injection H).
Qed.

(** X10. What a constructed instance holds for a field the payload gave is
    a value of the declared type that respects the declared lower bound. *)
Theorem given_fields_are_typed (m : model) (now : Z) (payload : dict)
    (x : instance) (f : field) (given : value) :
  construct m now payload = Ok x →
  f ∈ model_fields m →
  payload !! f_name f = Some given →
  ∃ v, model_dump x !! f_name f = Some v
       ∧ has_type (f_type f) v = true
       ∧ respects_ge (f_ge f) v.
Proof.
  intros H Hf Hp. destruct (instance_field m now payload x f H Hf) as (v & Hv & Hl).
  exists v. split; [done|].
  unfold field_value in Hv. rewrite Hp in Hv.
  destruct (coerce (f_type f) given) as [v1| |] eqn:Hc; try discriminate.
  apply check_ge_accept in Hv as [-> Hge]. split; [|done].
  by apply coerce_has_type in Hc.
Qed.

Lemma given_fields_are_typed_witness :
  ∃ x v, construct Item 0 sword = Ok x
         ∧ model_dump x !! "price" = Some v
         ∧ has_type TFloat v = true
         ∧ respects_ge (Some 0%Z) v.
Proof.
  destruct (construct Item 0 sword) as [x|e] eqn:E; [|by vm_compute in E].
  destruct (given_fields_are_typed Item 0 sword x
              (Field "price" TFloat Required (Some 0%Z)) (VInt 5) E) as (v & Hv);
    [set_solver | reflexivity |].
  by exists x, v.
Defined.

End Construction.

(* ===================================================================== *)
(** * Further facts: validation round trip and errors *)
(* ===================================================================== *)

Section RoundTrip.
Import Schemas Store Router Samples MoreSamples Shapes.

Lemma coerce_idempotent (t : ftype) (v v' : value) :
  coerce t v = Accept v' → coerce t v' = Accept v'.
Proof.
  revert v v'. induction t as [| | | | | | |t IH]; intros v v' H.
  1-7: destruct v; cbn in H; repeat (case_match; try discriminate);
       simplify_eq; cbn; try done; by repeat case_match.
  destruct v; cbn in H; try (by injection H as <-);
    (destruct v'; [done | by eapply IH..]).
Qed.

(** The declared defaults of every model with a create operation are values
    their fields accept unchanged. *)
Lemma defaults_conform (m : model)
    (handler : instance → connection → outcome document * connection) :
  post_route m = Some handler → Forall default_conforms (model_fields m).
Proof.
  destruct m; intros H; try discriminate H;
    repeat apply Forall_cons_2; try apply Forall_nil_2; by cbn.
Qed.

(** X11. Validation is idempotent on what it produces: for every model with
    a create operation, constructing again from the dump of a constructed
    instance gives the same instance, at any later time. *)
Theorem dump_then_construct (m : model) (now later : Z) (payload : dict)
    (x : instance)
    (handler : instance → connection → outcome document * connection) :
  post_route m = Some handler →
  construct m now payload = Ok x →
  construct m later (model_dump x) = Ok x.
Proof.
  intros Hroute H. pose proof (defaults_conform m handler Hroute) as Hdef.
  apply construct_ok_inv in H as [-> Hall]. cbn [model_dump inst_fields].
  rewrite Forall_forall in Hall, Hdef.
  assert (Hsame : ∀ f, f ∈ model_fields m →
            field_value later (accepted now payload (model_fields m)) f
            = field_value now payload f).
  { intros f Hf. destruct (Hall f Hf) as [v Hv]. rewrite Hv.
    pose proof (accepted_lookup now payload _ f v (field_names_nodup m) Hf Hv) as Hl.
    unfold field_value at 1. rewrite Hl.
    specialize (Hdef f Hf). unfold default_conforms in Hdef.
    unfold field_value in Hv. destruct (payload !! f_name f) as [given|].
    - destruct (coerce (f_type f) given) as [v1| |] eqn:Hc; try discriminate.
      apply check_ge_accept in Hv as [-> Hge].
      by rewrite (coerce_idempotent _ _ _ Hc).
    - destruct (f_default f) as [|d| |d]; try discriminate.
      + injection Hv as <-. destruct Hdef as [-> Hge]. done.
      + injection Hv as <-. rewrite Hdef. cbn. by destruct (f_ge f).
      + injection Hv as <-. destruct Hdef as [-> Hge]. done. }
  rewrite (construct_ext_values m later now _ payload Hsame).
  rewrite construct_accepts; [done|]. by apply Forall_forall.
Qed.

Lemma dump_then_construct_witness :
  ∃ x, construct StaffMember 10 moderator = Ok x
       ∧ construct StaffMember 99 (model_dump x) = Ok x.
Proof.
  destruct (construct StaffMember 10 moderator) as [x|e] eqn:E; [|by vm_compute in E].
  exists x. split; [done|].
  apply (dump_then_construct StaffMember 10 99 moderator x create_staff);
    [reflexivity | exact E].
Defined.

Lemma coerce_null (t : ftype) :
  (∀ t', t ≠ TOptional t') → coerce t VNull = Reject.
Proof. destruct t; intros H; try done. by destruct (H t). Qed.

(** X12. A payload that lacks a field without default, or gives null for a
    field whose type is not optional, is refused with a ValidationError that
    names the field; and a ValidationError names declared fields only, and
    at least one. *)
Theorem validation_errors_name_fields (m : model) (now : Z) (payload : dict) :
  (∀ f, f ∈ model_fields m →
     (payload !! f_name f = None ∧ f_default f = Required)
     ∨ (payload !! f_name f = Some VNull ∧ ∀ t', f_type f ≠ TOptional t') →
     ∃ fs, construct m now payload = Fail (ValidationError fs) ∧ f_name f ∈ fs) ∧
  (∀ fs, construct m now payload = Fail (ValidationError fs) →
     fs ≠ [] ∧ fs ⊆ field_names m).
Proof.
  split.
  - intros f Hf Hcase. apply construct_rejects; [done|]. unfold field_value.
    destruct Hcase as [[-> ->] | [-> Ht]]; [done|]. by rewrite coerce_null.
  - intros fs. unfold construct.
    destruct (rejected now payload (model_fields m)) as [|bad rest] eqn:Hr.
    + by destruct (existsb _ _).
    + intros [= <-]. split; [done|]. rewrite <- Hr. unfold rejected, field_names.
      intros n Hn. apply list_elem_of_fmap in Hn as (f & -> & Hf).
      apply elem_of_filter in Hf as [Hf _]. by apply list_elem_of_fmap_2.
Qed.

Lemma validation_errors_name_fields_witness :
  ∃ fs, construct VoteLink 0 {[ "name" := VStr "Server list" ]}
        = Fail (ValidationError fs)
        ∧ "url" ∈ fs.
Proof.
  apply (proj1 (validation_errors_name_fields VoteLink 0 {[ "name" := VStr "Server list" ]})
           (fld "url" THttpUrl Required)).
  - set_solver.
  - left. split; reflexivity.
Defined.

End RoundTrip.

(* ===================================================================== *)
(** * Further facts: how requests compose *)
(* ===================================================================== *)

Section Composition.
Import Schemas Store Router Samples MoreSamples Shapes.

Lemma post_route_create (m : model)
    (handler : instance → connection → outcome document * connection) :
  post_route m = Some handler → handler = create m.
Proof. destruct m; intros H; try discriminate H; by injection H as <-. Qed.

(** A [POST] either fails validation and leaves the connection alone, or
    runs [create_document] once on the validated instance. *)
Lemma post_inv (m : model) (now : Z) (payload : dict) (db db' : connection)
    (r : outcome document) :
  post m now payload db = Some (r, db') →
  post_route m = Some (create m) ∧
  ((∃ e, construct m now payload = Fail e ∧ db' = db) ∨
   (∃ x, construct m now payload = Ok x
         ∧ db' = (create_document (_collection_name m) x db).2)).
Proof.
  unfold post. destruct (post_route m) as [h|] eqn:Hr; [|discriminate].
  rewrite (post_route_create m h Hr). cbn. split; [done|].
  destruct (construct m now payload) as [x|e].
  - right. exists x. split; [done|]. unfold create in H.
    destruct (create_document (_collection_name m) x db) as [r0 db0].
    by injection H as _ <-.
  - left. exists e. by injection H as _ <-.
Qed.

Lemma collection_after_create (name other : string) (x : instance) (d : database) :
  ∃ d', (create_document name x (Some d)).2 = Some d'
        ∧ collection d' name
          = (collection d name ++ [Doc (Some (next_oid d)) (model_dump x)])%list
        ∧ (other ≠ name → collection d' other = collection d other).
Proof.
  eexists. split; [reflexivity|]. unfold collection. cbn [collections].
  split.
  - by rewrite lookup_insert_eq.
  - intros Hne. by rewrite lookup_insert_ne.
Qed.

(** A read sees the store through the one collection it names. *)
Lemma get_documents_collection (name : string) (filt : gmap string condition)
    (limit : Z) (d d' : database) :
  collection d' name = collection d name →
  get_documents name filt limit (Some d') = get_documents name filt limit (Some d).
Proof. intros H. unfold get_documents. by rewrite H. Qed.

(** After a [POST] on [m], every other collection is as before. *)
Lemma post_other_collections (m : model) (now : Z) (payload : dict)
    (db db' : connection) (r : outcome document) :
  post m now payload db = Some (r, db') →
  (db = None ∧ db' = None)
  ∨ ∃ d d', db = Some d ∧ db' = Some d'
            ∧ ∀ other, other ≠ _collection_name m →
                       collection d' other = collection d other.
Proof.
  intros H. apply post_inv in H as [_ [(e & _ & ->) | (x & _ & ->)]].
  - destruct db as [d|]; [right; by exists d, d | by left].
  - destruct db as [d|]; [right | by left].
    destruct (collection_after_create (_collection_name m) "" x d) as (d' & Hd' & _ & _).
    exists d, d'. split; [done|]. split; [done|]. intros other Hne.
    destruct (collection_after_create (_collection_name m) other x d)
      as (d'' & Hd'' & _ & Hother).
    rewrite Hd' in Hd''. injection Hd'' as <-. by apply Hother.
Qed.

(** X13. Creating an entity of one type changes no answer about another
    type: after any [POST], every list operation of another model, the
    player statistics and the stats summary answer as before. *)
Theorem posts_leave_other_models (m : model) (now : Z) (payload : dict)
    (db db' : connection) (r : outcome document) :
  post m now payload db = Some (r, db') →
  (∀ req limit, request_model req ≠ m →
     run_list req limit db' = run_list req limit db) ∧
  (∀ username limit,
     get_player_stats username limit db' = get_player_stats username limit db) ∧
  (∀ later, get_stats_summary later db' = get_stats_summary later db).
Proof.
  intros H.
  assert (Hroute : post_route m = Some (create m)) by (by apply post_inv in H as [? _]).
  assert (Hread : ∀ m' filt limit, m' ≠ m →
            get_documents (_collection_name m') filt limit db'
            = get_documents (_collection_name m') filt limit db).
  { intros m' filt limit Hne.
    destruct (post_other_collections _ _ _ _ _ _ H)
      as [[-> ->] | (d & d' & -> & -> & Hsame)]; [done|].
    apply get_documents_collection, Hsame.
    intros Heq. by apply Hne, collection_name_inj. }
  repeat apply conj.
  - intros req limit Hne. rewrite !run_list_unfold. by rewrite Hread.
  - intros username limit. unfold get_player_stats. rewrite Hread; [done|].
    intros <-. discriminate Hroute.
  - intros later. unfold get_stats_summary. rewrite Hread; [done|].
    intros <-. discriminate Hroute.
Qed.

Lemma posts_leave_other_models_witness :
  (∀ req limit, request_model req ≠ Item →
     run_list req limit (posted Item sword 1) = run_list req limit empty_store) ∧
  (∀ username limit,
     get_player_stats username limit (posted Item sword 1)
     = get_player_stats username limit empty_store) ∧
  (∀ later, get_stats_summary later (posted Item sword 1)
            = get_stats_summary later empty_store).
Proof.
  apply (posts_leave_other_models Item 0 sword empty_store (posted Item sword 1)
           (Ok (Doc None {["id" := VStr "000000000000000000000000"]}))).
  reflexivity.
Defined.

(** X14. No request makes a stored price negative: if every stored Item has
    a float price that is at least zero, so it is after any [POST]. *)
Theorem posts_keep_prices_nonnegative (m : model) (now : Z) (payload : dict)
    (db db' : connection) (r : outcome document) :
  item_prices_ok db →
  post m now payload db = Some (r, db') →
  item_prices_ok db'.
Proof.
  intros Hok H. pose proof (post_inv _ _ _ _ _ _ H) as [_ Hcase].
  destruct Hcase as [(e & _ & ->) | (x & Hx & Hdb')]; [done|].
  destruct db as [d|]; [|by intros ? ? ?; subst; discriminate].
  intros d' doc Hd' Hin. subst db'.
  destruct (collection_after_create (_collection_name m) (_collection_name Item) x d)
    as (d'' & Hd'' & Hnew & Hother).
  rewrite Hd'' in Hd'. injection Hd' as ->.
  destruct (decide (m = Item)) as [->|Hne].
  - rewrite Hnew in Hin. apply elem_of_app in Hin as [Hin|Hin]; [by eapply Hok|].
    apply list_elem_of_singleton in Hin as ->. cbn [doc_fields].
    assert (Hf : Field "price" TFloat Required (Some 0%Z) ∈ model_fields Item)
      by set_solver.
    destruct (instance_field Item now payload x _ Hx Hf) as (v & Hv & Hl).
    unfold field_value in Hv. cbn [f_name f_type f_ge f_default] in Hv, Hl.
    destruct (payload !! "price") as [given|]; [|discriminate].
    destruct (coerce TFloat given) as [v1| |] eqn:Hc; try discriminate.
    apply check_ge_accept in Hv as [-> Hge]. apply coerce_has_type in Hc.
    destruct v1; try discriminate Hc.
    exists f. split; [done|]. unfold respects_ge, check_ge in Hge.
    by destruct (SFleb (float_of_Z 0) f).
  - rewrite Hother in Hin; [by eapply Hok|].
    intros Heq. by apply Hne, collection_name_inj.
Qed.

Lemma posts_keep_prices_nonnegative_witness :
  item_prices_ok (posted Item sword 1).
Proof.
  apply (posts_keep_prices_nonnegative Item 0 sword empty_store (posted Item sword 1)
           (Ok (Doc None {["id" := VStr "000000000000000000000000"]}))).
  - intros d doc [= <-] Hin. by apply not_elem_of_nil in Hin.
  - reflexivity.
Defined.

(** X15. Without a live connection no handler answers from thin air: every
    list operation and the stats summary fail with StoreUnavailable, and a
    [POST] fails with the ValidationError of its payload if it has one, with
    StoreUnavailable otherwise; the connection stays as it is. *)
Theorem without_connection :
  (∀ req limit, run_list req limit None = Fail StoreUnavailable) ∧
  (∀ now, get_stats_summary now None = Fail StoreUnavailable) ∧
  (∀ m now payload handler,
     post_route m = Some handler →
     post m now payload None
     = Some (match construct m now payload with
             | Ok _ => Fail StoreUnavailable
             | Fail e => Fail e
             end, None)).
Proof.
  repeat apply conj.
  - intros req limit. by rewrite run_list_unfold.
  - done.
  - intros m now payload handler Hr. unfold post. rewrite Hr.
    rewrite (post_route_create m handler Hr). cbn.
    by destruct (construct m now payload).
Qed.

Lemma without_connection_witness :
  post Item 0 sword None = Some (Fail StoreUnavailable, None)
  ∧ post Item 0 cursed_sword None = Some (Fail (ValidationError ["price"]), None).
Proof.
  destruct without_connection as (_ & _ & H).
  split.
  - exact (H Item 0%Z sword create_item eq_refl).
  - exact (H Item 0%Z cursed_sword create_item eq_refl).
Defined.

Lemma filter_app_one {A} (t : A → bool) (l : list A) (a : A) :
  List.filter t (l ++ [a]) = (List.filter t l ++ if t a then [a] else [])%list.
Proof.
  induction l as [|b l IH]; cbn; [by destruct (t a)|].
  rewrite IH. by destruct (t b).
Qed.

(** X16. A created document is read last: for a list operation on the model
    just created, with fewer than [limit] matching documents stored before,
    the answer after the create is the answer before it, followed by the new
    document if the filter of the request accepts it. *)
Theorem created_document_is_listed_last (m : model) (now : Z) (payload : dict)
    (x : instance) (d : database) (req : list_request) (limit : Z)
    (test : document → bool)
    (handler : instance → connection → outcome document * connection) :
  post_route m = Some handler →
  construct m now payload = Ok x →
  request_model req = m →
  compile_filter (request_filter req) = Some test →
  (length (List.filter test (collection d (_collection_name m))) < Z.to_nat limit)%nat →
  run_list req limit (Some d)
  = Ok (_serialize <$> List.filter test (collection d (_collection_name m))) ∧
  run_list req limit (store_after (post m now payload (Some d)))
  = Ok (_serialize <$>
          (List.filter test (collection d (_collection_name m))
           ++ if test (Doc (Some (next_oid d)) (model_dump x))
              then [Doc (Some (next_oid d)) (model_dump x)] else [])%list).
Proof.
  intros Hroute Hx Hreq Htest Hlen.
  rewrite (post_route_create m handler Hroute) in Hroute.
  rewrite (post_creates m now payload x d Hx Hroute). cbn [store_after].
  destruct (collection_after_create (_collection_name m) "" x d) as (d' & -> & Hnew & _).
  rewrite !run_list_unfold, Hreq. unfold get_documents. rewrite Htest, Hnew.
  rewrite filter_app_one. cbn. split.
  - by rewrite take_ge by lia.
  - rewrite take_ge; [done|]. rewrite length_app.
    destruct (test _); cbn; lia.
Qed.

Lemma created_document_is_listed_last_witness :
  run_list (GetAnnouncements (Some "public")) 50
    (Some (database_of (posted Announcement public_notice 1)))
  = Ok (_serialize <$>
          List.filter (λ doc, str_test (String.eqb "public")
                                (doc_fields doc !! "visibility") && true)
            (collection (database_of (posted Announcement public_notice 1))
               (_collection_name Announcement))) ∧
  run_list (GetAnnouncements (Some "public")) 50
    (store_after (post Announcement 0 staff_notice
                    (Some (database_of (posted Announcement public_notice 1)))))
  = Ok (_serialize <$>
          (List.filter (λ doc, str_test (String.eqb "public")
                                 (doc_fields doc !! "visibility") && true)
             (collection (database_of (posted Announcement public_notice 1))
                (_collection_name Announcement))
           ++ if str_test (String.eqb "public")
                   (doc_fields (Doc (Some (next_oid (database_of
                                                       (posted Announcement public_notice 1))))
                                  (model_dump (Instance Announcement staff_notice)))
                    !! "visibility") && true
              then [Doc (Some (next_oid (database_of (posted Announcement public_notice 1))))
                      (model_dump (Instance Announcement staff_notice))]
              else [])%list).
Proof.
  refine (created_document_is_listed_last Announcement 0 staff_notice
            (Instance Announcement staff_notice)
            (database_of (posted Announcement public_notice 1))
            (GetAnnouncements (Some "public")) 50
            (λ doc, str_test (String.eqb "public") (doc_fields doc !! "visibility") && true)
            create_announcement _ _ _ _ _).
  - reflexivity.
  - reflexivity.
  - reflexivity.
  - reflexivity.
  - vm_compute. lia.
Defined.

End Composition.

(* ===================================================================== *)
(** * Further facts: the service endpoints *)
(* ===================================================================== *)

Section Service.
Import Schemas Store Router Samples MoreSamples Shapes Admin.

Lemma length_str_prefix (n : nat) (s : string) :
  (String.length (str_prefix n s) ≤ n)%nat.
Proof.
  unfold str_prefix. revert n. induction s as [|c s IH]; intros [|n]; cbn; try lia.
  specialize (IH n). lia.
Qed.

Lemma str_prefix_is_prefix (n : nat) (s : string) :
  String.prefix (str_prefix n s) s = true.
Proof.
  unfold str_prefix. revert n. induction s as [|c s IH]; intros [|n]; cbn; try done.
  rewrite IH. by destruct (ascii_dec c c).
Qed.

Lemma length_append (a b : string) :
  String.length (a +:+ b) = (String.length a + String.length b)%nat.
Proof. induction a as [|c a IH]; cbn; [done | by rewrite IH]. Qed.

(** X17. What [/test] reports: the database counts as connected and working
    exactly when there is a handle and listing its collections succeeded;
    the connection counts as connected exactly when there is a handle; and
    the environment variable is reported as set only when there is a handle
    and the variable is set to a non-empty text. *)
Theorem diagnosis_status (db : option mongo_handle) (url : option string) :
  (database_status (test_database db url) = "✅ Connected & Working"
   ↔ ∃ d names, db = Some d ∧ handle_collections d = inr names) ∧
  (connection_status (test_database db url) = "Connected" ↔ is_Some db) ∧
  (database_url (test_database db url) = "✅ Set"
   ↔ is_Some db ∧ is_Some (truthy url)).
Proof.
  destruct db as [[name [e|names]]|]; cbn.
  - repeat split; try (by eauto); try discriminate.
    + intros (d & names & [= <-] & H). discriminate H.
    + by destruct (truthy url).
    + intros [_ [s ->]]. done.
  - repeat split; try (by eauto); try discriminate.
    + by destruct (truthy url).
    + intros [_ [s ->]]. done.
  - repeat split; try discriminate.
    + intros (d & names & H & _). discriminate H.
    + by intros [? ?].
    + by intros [[? ?] _].
Qed.

(** X18. What [/test] returns is bounded: it lists at most 15 collection
    names, the first ones of the listing, and shows at most the first 80
    characters of the text of a listing error. *)
Theorem diagnosis_bounded (db : option mongo_handle) (url : option string) :
  (length (collection_names (test_database db url)) ≤ 15)%nat ∧
  (∀ d names, db = Some d → handle_collections d = inr names →
     collection_names (test_database db url) `prefix_of` names) ∧
  (∀ d e, db = Some d → handle_collections d = inl e →
     ∃ shown,
       database_status (test_database db url) = "⚠️ Connected but error: " +:+ shown
       ∧ (String.length shown ≤ 80)%nat
       ∧ String.prefix shown e = true).
Proof.
  repeat apply conj.
  - destruct db as [[name [e|names]]|]; cbn; try lia.
    rewrite length_take. lia.
  - intros d names -> H. unfold test_database. rewrite H. cbn.
    apply prefix_take.
  - intros d e -> H. unfold test_database. rewrite H. cbn.
    exists (str_prefix 80 e). split; [done|].
    split; [apply length_str_prefix | apply str_prefix_is_prefix].
Qed.

Lemma diagnosis_bounded_witness :
  collection_names
    (test_database (Some (MongoHandle "ezbuilds" (inr (replicate 20 "item")))) None)
  `prefix_of` replicate 20 "item".
Proof.
  apply (proj1 (proj2 (diagnosis_bounded
                         (Some (MongoHandle "ezbuilds" (inr (replicate 20 "item")))) None))
           (MongoHandle "ezbuilds" (inr (replicate 20 "item"))) (replicate 20 "item"));
    reflexivity.
Defined.

Lemma schema_fields_dom (annotation_str : ftype → string) (fs : list field)
    (acc : gmap string string) :
  dom (foldl (λ (fields : gmap string string) f,
                <[f_name f := annotation_str (f_type f)]> fields) acc fs)
  = list_to_set (f_name <$> fs) ∪ dom acc.
Proof.
  revert acc. induction fs as [|f fs IH]; intros acc; cbn.
  - set_solver.
  - rewrite IH, dom_insert_L. set_solver.
Qed.

Lemma all_models_listed (m : model) : m ∈ models.
Proof. unfold models. destruct m; set_solver. Qed.

(** X19. [/schema] agrees with the rest of the program: whatever the texts
    of the annotations, it names the models by their collection names, in
    the order of declaration, and for every model it lists exactly the
    fields that every constructed instance of the model has. *)
Theorem schema_matches_models (annotation_str : ftype → string) :
  info_name <$> get_schema annotation_str = _collection_name <$> models ∧
  (∀ m now payload x,
     construct m now payload = Ok x →
     ∃ info, info ∈ get_schema annotation_str
             ∧ info_name info = _collection_name m
             ∧ dom (info_fields info) = dom (model_dump x)).
Proof.
  split.
  - reflexivity.
  - intros m now payload x Hx.
    eexists. split; [|split].
    + unfold get_schema. apply list_elem_of_fmap_2, (all_models_listed m).
    + reflexivity.
    + cbn [info_fields]. rewrite schema_fields_dom, dom_empty_L.
      apply construct_ok_inv in Hx as [-> Hall]. cbn [model_dump inst_fields].
      rewrite (accepted_dom _ _ _ Hall).
      unfold field_names. set_solver.
Qed.

Lemma schema_matches_models_witness :
  ∃ info, info ∈ get_schema (λ _, "str")
          ∧ info_name info = "votelink"
          ∧ dom (info_fields info)
            = dom (model_dump (Instance VoteLink
                     {[ "name" := VStr "Server list";
                        "url" := VUrl "https://vote.example.org/mc/1";
                        "description" := VNull ]})).
Proof.
  apply (proj2 (schema_matches_models (λ _, "str")) VoteLink 0%Z
           (vote_site "https://vote.example.org/mc/1")).
  reflexivity.
Defined.

End Service.
